(** * StreamAlert rule processor: the handler (stream_alert/rule_processor/handler.py)

    A shallow embedding of class [StreamAlert] and of its methods [__init__],
    [run], [kinesis_process], [s3_process], [sns_process], [send_alerts] and
    [process_alerts], followed by the properties of the orchestration that
    the design document states about them.

    The modules the handler imports (config, classifier, pre_parsers,
    rules_engine, sink) and the json and logging libraries are collaborators:
    their functions are the fields of the class [Collaborators], every
    theorem holds for all of them, and each call the handler makes to one of
    them is recorded in a trace. *)

From Stdlib Require Import Ascii String.
From stdpp Require Import base option list strings gmap.

Local Open Scope string_scope.
Local Open Scope list_scope.

(** ** Python built-ins the handler uses *)

(** The characters [str.rstrip()] removes when called without argument
    (the whitespace of a byte string): space, tab, line feed, vertical tab,
    form feed, carriage return. *)
Definition is_whitespace (c : ascii) : bool :=
  let n := nat_of_ascii c in
  (n =? 32)%nat || ((9 <=? n)%nat && (n <=? 13)%nat).

(** [line.rstrip()]. *)
Fixpoint rstrip (s : string) : string :=
  match s with
  | EmptyString => EmptyString
  | String c s' =>
      match rstrip s' with
      | EmptyString => if is_whitespace c then EmptyString else String c EmptyString
      | r => String c r
      end
  end.

(** Truth value of a list ([if alerts:], [if self.alerts:]). *)
Definition truthy_list {A} (l : list A) : bool :=
  match l with [] => false | _ :: _ => true end.

(** Truth value of an optional flag ([if self.return_alerts:], where the
    attribute is [None] when the keyword argument was not given). *)
Definition truthy_flag (o : option bool) : bool :=
  match o with Some true => true | _ => false end.

(** ** The collaborators *)

(** What the handler imports and calls.  None of these modules is part of
    the handler; they are taken as parameters.  A [Payload] is the content
    of one [StreamPayload] object, seen through the attributes the handler
    reads; the methods that mutate the object in place ([refresh_record],
    [map_source], [classify_record]) give the content after the call. *)
Class Collaborators := {
  Raw : Type;
  Config : Type;
  LambdaContext : Type;
  Env : Type;
  Alert : Type;
  Payload : Type;
  (* stream_alert.rule_processor.config *)
  load_config : Config;
  load_env : LambdaContext -> Env;
  lambda_alias : Env -> string;
  (* stream_alert.rule_processor.classifier.StreamPayload *)
  StreamPayload : Raw -> Payload;
  raw_record : Payload -> Raw;
  service : Payload -> string;
  valid_source : Payload -> bool;
  valid : Payload -> bool;
  refresh_record : Payload -> string -> Payload;
  payload_str : Payload -> string;
  (* stream_alert.rule_processor.classifier.StreamClassifier *)
  map_source : Config -> Payload -> Payload;
  classify_record : Config -> Payload -> string -> Payload;
  (* stream_alert.rule_processor.pre_parsers.StreamPreParsers *)
  pre_parse_kinesis : Raw -> string;
  pre_parse_s3 : Raw -> list string;
  pre_parse_sns : Raw -> string;
  (* stream_alert.rule_processor.rules_engine.StreamRules *)
  StreamRules_process : Payload -> list Alert;
  (* json.dumps(_, indent=4) *)
  json_dumps_raw : Raw -> string;
  json_dumps_alerts : list Alert -> string
}.

(** ** Objects, traces and the monad of the handler *)

(** A reference to a [StreamPayload] object: its address in the store. *)
Definition ref := nat.

Inductive Level := DEBUG | INFO | ERROR.

Inductive LogArg :=
| ArgNat (n : nat)
| ArgStr (s : string).

(** The exceptions the handler itself can raise: reading a local variable
    that no assignment has bound, and reading an attribute of [None].
    [InvalidRef] stands for the use of a reference that was never
    allocated; [run] never raises it (lemma [run_loop_eq]). *)
Inductive Exn :=
| UnboundLocalError (name : string)
| AttributeError (attr : string)
| InvalidRef (r : ref).

Section Handler.
Context `{C : Collaborators}.

(** The methods of [StreamAlert] that another method calls, with their
    arguments. *)
Inductive Method :=
| s3_process_call (payload : ref)
| kinesis_process_call (payload : ref)
| sns_process_call (payload : ref)
| process_alerts_call (payload : ref) (data : string)
| send_alerts_call (env : Env) (payload : option ref).

(** One observable step: a call of the logger, of a collaborator or of a
    method of the class.  A call that receives a payload object records the
    reference and the content the object has when the call is made. *)
Inductive Action :=
| Log (lvl : Level) (fmt : string) (args : list LogArg)
| LoadConfig
| LoadEnv (context : LambdaContext)
| NewPayload (record : Raw) (r : ref)
| NewClassifier (config : Config)
| MapSource (r : ref) (p : Payload)
| PreParseKinesis (raw : Raw)
| PreParseS3 (raw : Raw)
| PreParseSns (raw : Raw)
| RefreshRecord (r : ref) (p : Payload) (data : string)
| ClassifyRecord (r : ref) (p : Payload) (data : string)
| RulesProcess (r : ref) (p : Payload)
| Sink (alerts : list Alert) (env : Env)
| Call (m : Method).

(** A [StreamAlert] object. *)
Record StreamAlert := mkStreamAlert {
  return_alerts : option bool;
  alerts : list Alert
}.

(** The state a method runs in: the object [self], the store of payload
    objects and the trace so far. *)
Record State := mkState {
  self : StreamAlert;
  heap : list Payload;
  trace : list Action
}.

(** A computation returns a value or raises; in both cases the mutations
    made so far remain. *)
Definition M (A : Type) : Type := State -> (Exn + A) * State.

Definition ret {A} (a : A) : M A := fun st => (inr a, st).

Definition bind {A B} (m : M A) (f : A -> M B) : M B :=
  fun st =>
    match m st with
    | (inl e, st') => (inl e, st')
    | (inr a, st') => f a st'
    end.

Definition raise {A} (e : Exn) : M A := fun st => (inl e, st).

Notation "'let!' x ':=' m 'in' k" := (bind m (fun x => k))
  (at level 10, x name, m at level 100, k at level 200).
Notation "m '>>' k" := (bind m (fun _ => k))
  (at level 90, right associativity).

Definition emit (a : Action) : M unit :=
  fun st => (inr tt, mkState (self st) (heap st) (trace st ++ [a])).

Definition get_self : M StreamAlert := fun st => (inr (self st), st).

(** [payload.attr]: read the object behind a reference. *)
Definition deref (r : ref) : M Payload :=
  fun st =>
    match heap st !! r with
    | Some p => (inr p, st)
    | None => (inl (InvalidRef r), st)
    end.

(** In-place mutation of the object behind a reference. *)
Definition assign (r : ref) (p : Payload) : M unit :=
  fun st => (inr tt, mkState (self st) (<[r := p]> (heap st)) (trace st)).

(** [logger.debug], [logger.info], [logger.error]. *)
Definition log (lvl : Level) (fmt : string) (args : list LogArg) : M unit :=
  emit (Log lvl fmt args).

(** [StreamPayload(raw_record=record)]: a new object, at a new address. *)
Definition new_payload (record : Raw) : M ref :=
  fun st =>
    let r := length (heap st) in
    (inr r, mkState (self st) (heap st ++ [StreamPayload record])
                    (trace st ++ [NewPayload record r])).

(** [StreamClassifier(config=config)]: the classifier holds the
    configuration and nothing else the handler depends on. *)
Definition new_classifier (config : Config) : M Config :=
  emit (NewClassifier config) >> ret config.

(** [classifier.map_source(payload)]. *)
Definition call_map_source (classifier : Config) (payload : ref) : M unit :=
  let! p := deref payload in
  emit (MapSource payload p) >>
  assign payload (map_source classifier p).

(** [payload.refresh_record(data)]. *)
Definition call_refresh_record (payload : ref) (data : string) : M unit :=
  let! p := deref payload in
  emit (RefreshRecord payload p data) >>
  assign payload (refresh_record p data).

(** [classifier.classify_record(payload, data)]. *)
Definition call_classify_record (classifier : Config) (payload : ref)
    (data : string) : M unit :=
  let! p := deref payload in
  emit (ClassifyRecord payload p data) >>
  assign payload (classify_record classifier p data).

(** [StreamRules.process(payload)]. *)
Definition call_rules_process (payload : ref) : M (list Alert) :=
  let! p := deref payload in
  emit (RulesProcess payload p) >>
  ret (StreamRules_process p).

(** [self.alerts.extend(alerts)]. *)
Definition extend_alerts (new : list Alert) : M unit :=
  fun st =>
    (inr tt,
     mkState (mkStreamAlert (return_alerts (self st)) (alerts (self st) ++ new))
             (heap st) (trace st)).

(** ** The methods of [StreamAlert] *)

(** [StreamAlert.__init__]; the argument is the value of
    [kwargs.get('return_alerts')]. *)
Definition StreamAlert_init (return_alerts : option bool) : StreamAlert :=
  mkStreamAlert return_alerts [].

(** [StreamAlert.process_alerts]. *)
Definition process_alerts (classifier : Config) (payload : ref)
    (data : string) : M unit :=
  emit (Call (process_alerts_call payload data)) >>
  call_classify_record classifier payload data >>
  let! p := deref payload in
  if valid p then
    let! alerts := call_rules_process payload in
    if truthy_list alerts then extend_alerts alerts else ret tt
  else
    log ERROR "Invalid data: %s\n%s"
        [ArgStr (payload_str p); ArgStr (json_dumps_raw (raw_record p))].

(** [StreamAlert.kinesis_process]. *)
Definition kinesis_process (payload : ref) (classifier : Config) : M unit :=
  emit (Call (kinesis_process_call payload)) >>
  let! p := deref payload in
  emit (PreParseKinesis (raw_record p)) >>
  let data := pre_parse_kinesis (raw_record p) in
  process_alerts classifier payload data.

(** The loop of [s3_process] over the lines of the object. *)
Fixpoint s3_lines (payload : ref) (classifier : Config)
    (s3_file_lines : list string) : M unit :=
  match s3_file_lines with
  | [] => ret tt
  | line :: rest =>
      let data := rstrip line in
      call_refresh_record payload data >>
      process_alerts classifier payload data >>
      s3_lines payload classifier rest
  end.

(** [StreamAlert.s3_process]. *)
Definition s3_process (payload : ref) (classifier : Config) : M unit :=
  emit (Call (s3_process_call payload)) >>
  let! p := deref payload in
  emit (PreParseS3 (raw_record p)) >>
  let s3_file_lines := pre_parse_s3 (raw_record p) in
  s3_lines payload classifier s3_file_lines.

(** [StreamAlert.sns_process]. *)
Definition sns_process (payload : ref) (classifier : Config) : M unit :=
  emit (Call (sns_process_call payload)) >>
  let! p := deref payload in
  emit (PreParseSns (raw_record p)) >>
  let data := pre_parse_sns (raw_record p) in
  process_alerts classifier payload data.

(** [payload.valid] in [send_alerts], whose argument is whatever the caller
    passes: a payload object, or [None]. *)
Definition read_valid (payload : option ref) : M bool :=
  match payload with
  | Some r => let! p := deref r in ret (valid p)
  | None => raise (AttributeError "valid")
  end.

(** [StreamAlert.send_alerts]. *)
Definition send_alerts (env : Env) (payload : option ref) : M unit :=
  emit (Call (send_alerts_call env payload)) >>
  let! s := get_self in
  if truthy_list (alerts s) then
    if String.eqb (lambda_alias env) "development" then
      log INFO "%s alerts triggered" [ArgNat (length (alerts s))] >>
      log INFO "\n%s\n" [ArgStr (json_dumps_alerts (alerts s))]
    else
      emit (Sink (alerts s) env)
  else
    let! v := read_valid payload in
    if v then log DEBUG "Valid data, no alerts" [] else ret tt.

(** The body of the [for] loop of [run], for one record.  It returns the
    reference the local variable [payload] is bound to afterwards;
    [continue] ends the body. *)
Definition run_record (config : Config) (record : Raw) : M ref :=
  let! payload := new_payload record in
  let! classifier := new_classifier config in
  call_map_source classifier payload >>
  let! p := deref payload in
  (if negb (valid_source p) then ret tt
   else if String.eqb (service p) "s3" then s3_process payload classifier
   else if String.eqb (service p) "kinesis" then kinesis_process payload classifier
   else if String.eqb (service p) "sns" then sns_process payload classifier
   else log INFO "Unsupported service: %s" [ArgStr (service p)]) >>
  ret payload.

(** The [for] loop of [run].  The argument [payload] is the binding of the
    local variable of that name before the loop ([None]: unbound), the
    result its binding after the loop. *)
Fixpoint run_loop (config : Config) (records : list Raw)
    (payload : option ref) : M (option ref) :=
  match records with
  | [] => ret payload
  | record :: rest =>
      let! r := run_record config record in
      run_loop config rest (Some r)
  end.

(** [event.get('Records', [])]. *)
Definition get_records (event : gmap string (list Raw)) : list Raw :=
  default [] (event !! "Records").

(** Reading the local variable [payload] after the loop. *)
Definition read_local (name : string) (v : option ref) : M ref :=
  match v with
  | Some r => ret r
  | None => raise (UnboundLocalError name)
  end.

(** [StreamAlert.run].  The result is [Some l] for [return self.alerts]
    and [None] when the method falls off its end. *)
Definition run (event : gmap string (list Raw)) (context : LambdaContext)
    : M (option (list Alert)) :=
  log DEBUG "Number of Records: %d" [ArgNat (length (get_records event))] >>
  emit LoadConfig >>
  let config := load_config in
  emit (LoadEnv context) >>
  let env := load_env context in
  let! payload := run_loop config (get_records event) None in
  let! s := get_self in
  if truthy_flag (return_alerts s) then ret (Some (alerts s))
  else
    let! r := read_local "payload" payload in
    send_alerts env (Some r) >>
    ret None.

End Handler.

(** ** What one call does to the state

    The effect of a method on the payload object it receives, on the alert
    accumulator and on the trace, as functions of the content [p] the
    object has when the method is called.  The lemmas of the next section
    prove that the methods above have exactly these effects. *)

Section Effects.
Context `{C : Collaborators}.

Record Effect := mkEffect {
  e_payload : Payload;
  e_alerts : list Alert;
  e_trace : list Action
}.

(** The state after an effect on the object at [r]. *)
Definition after (r : ref) (e : Effect) (st : State) : State :=
  mkState (mkStreamAlert (return_alerts (self st)) (alerts (self st) ++ e_alerts e))
          (<[r := e_payload e]> (heap st))
          (trace st ++ e_trace e).

Definition invalid_data_log (p : Payload) : Action :=
  Log ERROR "Invalid data: %s\n%s"
      [ArgStr (payload_str p); ArgStr (json_dumps_raw (raw_record p))].

Definition process_alerts_eff (cfg : Config) (r : ref) (p : Payload)
    (data : string) : Effect :=
  let p' := classify_record cfg p data in
  mkEffect p'
    (if valid p' then StreamRules_process p' else [])
    (Call (process_alerts_call r data) :: ClassifyRecord r p data ::
     (if valid p' then [RulesProcess r p'] else [invalid_data_log p'])).

Fixpoint s3_lines_eff (cfg : Config) (r : ref) (p : Payload)
    (lines : list string) : Effect :=
  match lines with
  | [] => mkEffect p [] []
  | line :: rest =>
      let data := rstrip line in
      let e1 := process_alerts_eff cfg r (refresh_record p data) data in
      let e2 := s3_lines_eff cfg r (e_payload e1) rest in
      mkEffect (e_payload e2) (e_alerts e1 ++ e_alerts e2)
               (RefreshRecord r p data :: e_trace e1 ++ e_trace e2)
  end.

Definition s3_process_eff (cfg : Config) (r : ref) (p : Payload) : Effect :=
  let e := s3_lines_eff cfg r p (pre_parse_s3 (raw_record p)) in
  mkEffect (e_payload e) (e_alerts e)
    (Call (s3_process_call r) :: PreParseS3 (raw_record p) :: e_trace e).

Definition kinesis_process_eff (cfg : Config) (r : ref) (p : Payload) : Effect :=
  let e := process_alerts_eff cfg r p (pre_parse_kinesis (raw_record p)) in
  mkEffect (e_payload e) (e_alerts e)
    (Call (kinesis_process_call r) :: PreParseKinesis (raw_record p) :: e_trace e).

Definition sns_process_eff (cfg : Config) (r : ref) (p : Payload) : Effect :=
  let e := process_alerts_eff cfg r p (pre_parse_sns (raw_record p)) in
  mkEffect (e_payload e) (e_alerts e)
    (Call (sns_process_call r) :: PreParseSns (raw_record p) :: e_trace e).

(** The dispatch on [payload.valid_source] and [payload.service]. *)
Definition dispatch_eff (cfg : Config) (r : ref) (p : Payload) : Effect :=
  if negb (valid_source p) then mkEffect p [] []
  else if String.eqb (service p) "s3" then s3_process_eff cfg r p
  else if String.eqb (service p) "kinesis" then kinesis_process_eff cfg r p
  else if String.eqb (service p) "sns" then sns_process_eff cfg r p
  else mkEffect p [] [Log INFO "Unsupported service: %s" [ArgStr (service p)]].

(** One iteration of the loop of [run], for the record whose payload is
    allocated at [r]. *)
Definition run_record_eff (cfg : Config) (r : ref) (record : Raw) : Effect :=
  let p0 := StreamPayload record in
  let e := dispatch_eff cfg r (map_source cfg p0) in
  mkEffect (e_payload e) (e_alerts e)
    (NewPayload record r :: NewClassifier cfg :: MapSource r p0 :: e_trace e).

(** The state after one iteration of the loop of [run]. *)
Definition after_record (cfg : Config) (record : Raw) (st : State) : State :=
  let e := run_record_eff cfg (length (heap st)) record in
  mkState (mkStreamAlert (return_alerts (self st)) (alerts (self st) ++ e_alerts e))
          (heap st ++ [e_payload e])
          (trace st ++ e_trace e).

(** The payload objects, the alerts and the trace of the whole loop, when
    the first record's payload is allocated at [base]. *)
Fixpoint run_loop_eff (cfg : Config) (base : nat) (records : list Raw)
    : list Payload * list Alert * list Action :=
  match records with
  | [] => ([], [], [])
  | record :: rest =>
      let e := run_record_eff cfg base record in
      let '(ps, als, tr) := run_loop_eff cfg (S base) rest in
      (e_payload e :: ps, e_alerts e ++ als, e_trace e ++ tr)
  end.

Definition loop_payloads cfg base records := (run_loop_eff cfg base records).1.1.
Definition loop_alerts cfg base records := (run_loop_eff cfg base records).1.2.
Definition loop_trace cfg base records := (run_loop_eff cfg base records).2.

(** The state after the loop. *)
Definition after_loop (cfg : Config) (records : list Raw) (st : State) : State :=
  let base := length (heap st) in
  mkState (mkStreamAlert (return_alerts (self st))
                         (alerts (self st) ++ loop_alerts cfg base records))
          (heap st ++ loop_payloads cfg base records)
          (trace st ++ loop_trace cfg base records).

(** The binding of the local variable [payload] after the loop. *)
Definition last_ref (base : nat) (records : list Raw) (v : option ref)
    : option ref :=
  match records with
  | [] => v
  | _ :: _ => Some (base + length records - 1)
  end.

(** *** Observations on a trace *)

Definition is_sink (a : Action) : bool :=
  match a with Sink _ _ => true | _ => false end.

Definition is_log (a : Action) : bool :=
  match a with Log _ _ _ => true | _ => false end.

Definition is_error_log (a : Action) : bool :=
  match a with Log ERROR _ _ => true | _ => false end.

Definition is_pre_parse (a : Action) : bool :=
  match a with
  | PreParseKinesis _ | PreParseS3 _ | PreParseSns _ => true
  | _ => false
  end.

Definition is_rules_process (a : Action) : bool :=
  match a with RulesProcess _ _ => true | _ => false end.

(** The invocations of [process_alerts] in a trace: reference and data. *)
Definition process_alerts_calls (t : list Action) : list (ref * string) :=
  omap (fun a => match a with
                 | Call (process_alerts_call r d) => Some (r, d)
                 | _ => None
                 end) t.

(** The invocations of [send_alerts] in a trace. *)
Definition send_alerts_calls (t : list Action) : list (Env * option ref) :=
  omap (fun a => match a with
                 | Call (send_alerts_call env r) => Some (env, r)
                 | _ => None
                 end) t.

(** The results the rule engine returned, in the order of the calls. *)
Definition rule_results (t : list Action) : list (list Alert) :=
  omap (fun a => match a with
                 | RulesProcess _ p => Some (StreamRules_process p)
                 | _ => None
                 end) t.

(** The payload objects a trace creates: the record each is built from
    and its address. *)
Definition new_payloads (t : list Action) : list (Raw * ref) :=
  omap (fun a => match a with
                 | NewPayload record r => Some (record, r)
                 | _ => None
                 end) t.

(** The payload objects classification has been run on in a trace. *)
Definition classified (t : list Action) : list ref :=
  omap (fun a => match a with
                 | ClassifyRecord r _ _ => Some r
                 | _ => None
                 end) t.

(** A trace that creates no payload object, invokes no delivery and runs
    classification on no object but the one at [r]. *)
Definition quiet_on (r : ref) (t : list Action) : Prop :=
  new_payloads t = [] /\ send_alerts_calls t = [] /\ Forall (eq r) (classified t).

(** The part of a trace added since an earlier trace of length [n]. *)
Definition since (n : nat) (t : list Action) : list Action := drop n t.

End Effects.

(** ** The statements of the design document, as functions *)

Section Design.
Context `{C : Collaborators}.

(** What [run] does before its loop. *)
Definition run_prelude (event : gmap string (list Raw))
    (context : LambdaContext) : list Action :=
  [Log DEBUG "Number of Records: %d" [ArgNat (length (get_records event))];
   LoadConfig; LoadEnv context].

Definition before_loop (event : gmap string (list Raw))
    (context : LambdaContext) (st : State) : State :=
  mkState (self st) (heap st) (trace st ++ run_prelude event context).

(** The state when the loop of [run] is over. *)
Definition at_delivery (event : gmap string (list Raw))
    (context : LambdaContext) (st : State) : State :=
  after_loop load_config (get_records event) (before_loop event context st).

(** The four outcomes of the Delivery Decision, as the steps it adds to the
    trace: [accumulated] is the alert accumulator and [v] the valid flag of
    the last payload, read only when the accumulator is empty. *)
Definition delivery_steps (env : Env) (accumulated : list Alert) (v : bool)
    : list Action :=
  if truthy_list accumulated then
    if String.eqb (lambda_alias env) "development" then
      [Log INFO "%s alerts triggered" [ArgNat (length accumulated)];
       Log INFO "\n%s\n" [ArgStr (json_dumps_alerts accumulated)]]
    else [Sink accumulated env]
  else if v then [Log DEBUG "Valid data, no alerts" []] else [].

(** Rule evaluation of one data unit: the result sequence the rule engine
    returns when classification marks the unit valid, nothing otherwise. *)
Definition unit_results (cfg : Config) (p : Payload) (data : string)
    : list (list Alert) :=
  let p' := classify_record cfg p data in
  if valid p' then [StreamRules_process p'] else [].

(** The rule-evaluation results of the lines of an archive record, in line
    order; each line is right-stripped and the payload refreshed with it. *)
Fixpoint archive_results (cfg : Config) (p : Payload) (lines : list string)
    : list (list Alert) :=
  match lines with
  | [] => []
  | line :: rest =>
      let data := rstrip line in
      let q := refresh_record p data in
      unit_results cfg q data ++
      archive_results cfg (classify_record cfg q data) rest
  end.

(** The rule-evaluation results of one raw record: none when its source is
    not in the configuration or its service has no extractor. *)
Definition record_results (cfg : Config) (record : Raw) : list (list Alert) :=
  let p := map_source cfg (StreamPayload record) in
  if valid_source p then
    if String.eqb (service p) "s3" then
      archive_results cfg p (pre_parse_s3 (raw_record p))
    else if String.eqb (service p) "kinesis" then
      unit_results cfg p (pre_parse_kinesis (raw_record p))
    else if String.eqb (service p) "sns" then
      unit_results cfg p (pre_parse_sns (raw_record p))
    else []
  else [].

(** The concatenation, in record order, of the non-empty rule-evaluation
    results of a batch. *)
Definition expected_alerts (cfg : Config) (records : list Raw) : list Alert :=
  concat (List.filter truthy_list (flat_map (record_results cfg) records)).

(** The lines of an archive record as the Alert Pipeline meets them: for
    each line, the content of the payload object before it is refreshed
    and the right-stripped data. *)
Fixpoint line_steps (cfg : Config) (p : Payload) (lines : list string)
    : list (Payload * string) :=
  match lines with
  | [] => []
  | line :: rest =>
      let data := rstrip line in
      (p, data) ::
      line_steps cfg (classify_record cfg (refresh_record p data) data) rest
  end.

(** What happens for one line: the object at [r] is refreshed with the
    data, the Alert Pipeline is invoked on it, classification runs on the
    refreshed object, and the valid flag it leaves decides between rule
    evaluation and the error log. *)
Definition line_trace (cfg : Config) (r : ref) (step : Payload * string)
    : list Action :=
  let data := step.2 in
  let q := refresh_record step.1 data in
  let p' := classify_record cfg q data in
  [RefreshRecord r step.1 data;
   Call (process_alerts_call r data);
   ClassifyRecord r q data;
   if valid p' then RulesProcess r p' else invalid_data_log p'].

End Design.

(** ** The contract of classification *)

Section Contract.
Context `{C : Collaborators}.

(** The contents the payload object of an archive record can have when a
    line is about to be processed: the content [p] the extractor
    received, and whatever the refresh and the classification of an
    earlier line have left. *)
Inductive refreshed_from (cfg : Config) (p : Payload) : Payload -> Prop :=
| refreshed_start : refreshed_from cfg p p
| refreshed_line q data :
    refreshed_from cfg p q ->
    refreshed_from cfg p (classify_record cfg (refresh_record q data) data).

(** Modelled from the spec: the classifier module ([refresh_record] of
    [StreamPayload] and [classify_record] of [StreamClassifier]) is not
    among the sources of the handler.  The design document gives it this
    contract: classification of a payload with a data unit sets the valid
    flag of the payload, and the flag says whether this data unit
    classifies and parses for the source of the record.  [verdict data] is
    that answer for the record whose payload the extractor received as
    [p]: the flag that classification leaves on the refreshed payload is
    [verdict data], whatever earlier lines have left in the object. *)
Definition classification_sets_valid (cfg : Config) (p : Payload)
    (verdict : string -> bool) : Prop :=
  forall q data,
    refreshed_from cfg p q ->
    valid (classify_record cfg (refresh_record q data) data) = verdict data.

(** What became of the data units of a trace, in order: [true] for a unit
    given to the rule engine, [false] for a unit reported as invalid
    data. *)
Definition unit_outcomes (t : list Action) : list bool :=
  omap (fun a => match a with
                 | RulesProcess _ _ => Some true
                 | Log ERROR _ _ => Some false
                 | _ => None
                 end) t.

(** The steps of the Alert Pipeline proper. *)
Definition is_unit_step (a : Action) : bool :=
  match a with
  | Call (process_alerts_call _ _) | ClassifyRecord _ _ _
  | RulesProcess _ _ | Log ERROR _ _ => true
  | _ => false
  end.

(** A sequence of whole data units: each is one invocation of
    [process_alerts], then the classification of the same object on the
    same data, then rule evaluation of the classified payload when its
    valid flag is set, and the error log of invalid data when it is
    not. *)
Inductive units (cfg : Config) : list Action -> Prop :=
| units_nil : units cfg []
| units_valid r p data t :
    valid (classify_record cfg p data) = true ->
    units cfg t ->
    units cfg (Call (process_alerts_call r data) :: ClassifyRecord r p data ::
               RulesProcess r (classify_record cfg p data) :: t)
| units_invalid r p data t :
    valid (classify_record cfg p data) = false ->
    units cfg t ->
    units cfg (Call (process_alerts_call r data) :: ClassifyRecord r p data ::
               invalid_data_log (classify_record cfg p data) :: t).

End Contract.

(** ** Further observations on a trace *)

Section Steps.
Context `{C : Collaborators}.

Definition is_load (a : Action) : bool :=
  match a with LoadConfig | LoadEnv _ => true | _ => false end.

Definition is_refresh (a : Action) : bool :=
  match a with RefreshRecord _ _ _ => true | _ => false end.

(** The classifiers a trace creates: the configuration each receives. *)
Definition new_classifiers (t : list Action) : list Config :=
  omap (fun a => match a with
                 | NewClassifier config => Some config
                 | _ => None
                 end) t.

(** The steps of the Alert Pipeline and of the refresh that precedes it
    in an archive record. *)
Definition is_pipeline_step (a : Action) : bool :=
  match a with
  | RefreshRecord _ _ _ | ClassifyRecord _ _ _ | RulesProcess _ _
  | Call (process_alerts_call _ _) | Log ERROR _ _ => true
  | _ => false
  end.

(** The steps of the dispatch of one record: those of the pipeline, the
    entry into an extractor, the call of a pre-parser and the log of an
    unsupported service. *)
Definition is_dispatch_step (a : Action) : bool :=
  match a with
  | Call (s3_process_call _) | Call (kinesis_process_call _)
  | Call (sns_process_call _)
  | PreParseKinesis _ | PreParseS3 _ | PreParseSns _
  | Log INFO _ _ => true
  | _ => is_pipeline_step a
  end.

(** The steps of one iteration of the loop of [run]. *)
Definition is_loop_step (a : Action) : bool :=
  match a with
  | NewPayload _ _ | NewClassifier _ | MapSource _ _ => true
  | _ => is_dispatch_step a
  end.

(** The steps of an iteration that stops at the source mapping. *)
Definition is_mapping_step (a : Action) : bool :=
  match a with
  | NewPayload _ _ | NewClassifier _ | MapSource _ _ => true
  | _ => false
  end.

(** In a balanced trace every invocation of the Alert Pipeline has its
    classification, and every classification is followed by rule
    evaluation or by an error log. *)
Definition balanced (t : list Action) : Prop :=
  length (process_alerts_calls t) = length (classified t) /\
  length (classified t) =
    length (rule_results t) + length (List.filter is_error_log t).

(** What [run] adds to the trace after its loop, on a dispatcher in state
    [st]: nothing when it returns the alerts or has no payload, and
    otherwise the invocation of [send_alerts] on the last payload object
    and the steps of the Delivery Decision. *)
Definition run_delivery (event : gmap string (list Raw))
    (context : LambdaContext) (st : State) : list Action :=
  if truthy_flag (return_alerts (self st)) then []
  else
    match last (loop_payloads load_config (length (heap st)) (get_records event)) with
    | None => []
    | Some p =>
        Call (send_alerts_call (load_env context)
                (Some (length (heap st) + length (get_records event) - 1))) ::
        delivery_steps (load_env context)
          (alerts (self st) ++
           loop_alerts load_config (length (heap st)) (get_records event))
          (valid p)
    end.

(** The sink calls of an invocation of [run] on a dispatcher that holds
    [held] when it is called. *)
Definition expected_sink_calls (event : gmap string (list Raw))
    (context : LambdaContext) (flag : option bool) (held : list Alert)
    : list Action :=
  let accumulated := held ++ expected_alerts load_config (get_records event) in
  if truthy_flag flag then []
  else if truthy_list (get_records event) && truthy_list accumulated &&
          negb (String.eqb (lambda_alias (load_env context)) "development")
  then [Sink accumulated (load_env context)]
  else [].

(** The pre-parser call of one record. *)
Definition expected_pre_parse (cfg : Config) (record : Raw) : list Action :=
  let p := map_source cfg (StreamPayload record) in
  if negb (valid_source p) then []
  else if String.eqb (service p) "s3" then [PreParseS3 (raw_record p)]
  else if String.eqb (service p) "kinesis" then [PreParseKinesis (raw_record p)]
  else if String.eqb (service p) "sns" then [PreParseSns (raw_record p)]
  else [].

End Steps.

(** A string of whitespace only. *)
Fixpoint all_whitespace (s : string) : bool :=
  match s with
  | EmptyString => true
  | String c s' => is_whitespace c && all_whitespace s'
  end.

(** ** A small set of collaborators

    Concrete collaborators on which the handler can be run: records carry
    their service, the entity that produced them and their lines; a source
    is valid when the entity is in the configuration; a data unit is valid
    when it starts with an opening brace; the one rule fires on data that
    starts with [{evil]. *)

Module Sample.

Record raw := mkRaw {
  raw_service : string;
  raw_entity : string;
  raw_lines : list string
}.

Record payload := mkPayload {
  p_raw : raw;
  p_service : string;
  p_valid_source : bool;
  p_valid : bool;
  p_record : string
}.

Definition known (cfg : list string) (entity : string) : bool :=
  existsb (String.eqb entity) cfg.

Definition join (l : list string) : string := String.concat "" l.

#[local] Instance collaborators : Collaborators := {|
  Raw := raw;
  Config := list string;
  LambdaContext := string;
  Env := string;
  Alert := string;
  Payload := payload;
  load_config := ["logs_bucket"; "prod_stream"; "ops_topic"; "queue"];
  load_env := fun context => context;
  lambda_alias := fun env => env;
  StreamPayload := fun record => mkPayload record "" false false "";
  raw_record := p_raw;
  service := p_service;
  valid_source := p_valid_source;
  valid := p_valid;
  refresh_record := fun p data =>
    mkPayload (mkRaw (raw_service (p_raw p)) (raw_entity (p_raw p)) [data])
              (p_service p) (p_valid_source p) (p_valid p) "";
  payload_str := fun p => String.append "payload of " (raw_entity (p_raw p));
  map_source := fun cfg p =>
    mkPayload (p_raw p) (raw_service (p_raw p))
              (known cfg (raw_entity (p_raw p))) (p_valid p) (p_record p);
  classify_record := fun cfg p data =>
    mkPayload (p_raw p) (p_service p) (p_valid_source p)
              (String.prefix "{" data) data;
  pre_parse_kinesis := fun record => join (raw_lines record);
  pre_parse_s3 := raw_lines;
  pre_parse_sns := fun record => join (raw_lines record);
  StreamRules_process := fun p =>
    if String.prefix "{evil" (p_record p)
    then [String.append "alert: " (p_record p)] else [];
  json_dumps_raw := fun record => join (raw_lines record);
  json_dumps_alerts := String.concat ", "
|}.

(** An archive record of three lines, each of which yields one alert. *)
Definition archive_record : raw :=
  mkRaw "s3" "logs_bucket" ["{evil 1}  "; "{evil 2}"; "{evil 3} "].

(** An archive record with a line that does not classify. *)
Definition mixed_record : raw :=
  mkRaw "s3" "logs_bucket" ["{evil 1} "; "junk"; "{fine}"].

(** A stream record whose source is not in the configuration. *)
Definition unknown_record : raw := mkRaw "kinesis" "other_stream" ["{evil 9}"].

(** A notification that does not classify. *)
Definition invalid_notification : raw := mkRaw "sns" "ops_topic" ["junk"].

Definition batch (records : list raw) : gmap string (list raw) :=
  {["Records" := records]}.

(** A freshly constructed dispatcher, nothing allocated and nothing done. *)
Definition fresh (return_alerts : option bool) : State :=
  mkState (StreamAlert_init return_alerts) [] [].

(** The state in which the loop body has built and mapped the payload of
    [archive_record]. *)
Definition mapped (record : raw) : State :=
  mkState (StreamAlert_init None) [map_source load_config (StreamPayload record)] [].

(** A dispatcher that holds one alert. *)
Definition holding : State :=
  mkState (mkStreamAlert None ["alert: {evil 1}"])
          [map_source load_config (StreamPayload archive_record)] [].

(** A stream record and a notification, each of which yields one alert. *)
Definition stream_record : raw := mkRaw "kinesis" "prod_stream" ["{evil 7} "].

Definition notification : raw := mkRaw "sns" "ops_topic" ["{evil 8}"].

(** A record of a configured source whose service has no extractor. *)
Definition unsupported_record : raw := mkRaw "sqs" "queue" ["{evil 5}"].

(** An archive record whose object has no line. *)
Definition empty_archive : raw := mkRaw "s3" "logs_bucket" [].

(** A dispatcher without alerts in whose store the payload of
    [invalid_notification], classified, is at address 0. *)
Definition idle : State :=
  mkState (StreamAlert_init None)
          [classify_record load_config
             (map_source load_config (StreamPayload invalid_notification)) "junk"]
          [].

End Sample.

(** ** Collaborators whose classifier keeps the flag

    The sample collaborators, but with a classifier that raises the valid
    flag of a payload and never lowers it, and a refresh that leaves the
    flag alone: a classifier that does not meet the contract
    [classification_sets_valid]. *)

Module Sticky.
Import Sample.

#[local] Instance collaborators : Collaborators := {|
  Raw := raw;
  Config := list string;
  LambdaContext := string;
  Env := string;
  Alert := string;
  Payload := payload;
  load_config := ["logs_bucket"; "prod_stream"; "ops_topic"; "queue"];
  load_env := fun context => context;
  lambda_alias := fun env => env;
  StreamPayload := fun record => mkPayload record "" false false "";
  raw_record := p_raw;
  service := p_service;
  valid_source := p_valid_source;
  valid := p_valid;
  refresh_record := fun p data =>
    mkPayload (mkRaw (raw_service (p_raw p)) (raw_entity (p_raw p)) [data])
              (p_service p) (p_valid_source p) (p_valid p) "";
  payload_str := fun p => String.append "payload of " (raw_entity (p_raw p));
  map_source := fun cfg p =>
    mkPayload (p_raw p) (raw_service (p_raw p))
              (known cfg (raw_entity (p_raw p))) (p_valid p) (p_record p);
  classify_record := fun cfg p data =>
    mkPayload (p_raw p) (p_service p) (p_valid_source p)
              (p_valid p || String.prefix "{" data) data;
  pre_parse_kinesis := fun record => join (raw_lines record);
  pre_parse_s3 := raw_lines;
  pre_parse_sns := fun record => join (raw_lines record);
  StreamRules_process := fun p =>
    if String.prefix "{evil" (p_record p)
    then [String.append "alert: " (p_record p)] else [];
  json_dumps_raw := fun record => join (raw_lines record);
  json_dumps_alerts := String.concat ", "
|}.

(** [s3_process] on the payload of [mixed_record], built and mapped. *)
Definition mixed_archive : (Exn + unit) * State :=
  s3_process 0 load_config
    (mkState (StreamAlert_init None)
             [map_source load_config (StreamPayload mixed_record)] []).

End Sticky.

(** ** The methods have the effects above *)

Section Equations.
Context `{C : Collaborators}.

Lemma bind_inr {A B} (m : M A) (f : A -> M B) st a st' :
  m st = (inr a, st') -> bind m f st = f a st'.
Proof. unfold bind. intros ->. reflexivity. Qed.

Lemma deref_eq r p st : heap st !! r = Some p -> deref r st = (inr p, st).
Proof. unfold deref. intros ->. reflexivity. Qed.

Lemma after_heap_lookup r e st p :
  heap st !! r = Some p -> heap (after r e st) !! r = Some (e_payload e).
Proof.
  intros H. simpl. apply list_lookup_insert_eq.
  eapply lookup_lt_Some, H.
Qed.

Lemma after_heap_length r e st : length (heap (after r e st)) = length (heap st).
Proof. simpl. apply length_insert. Qed.

(** Two effects in sequence on the same object. *)
Lemma after_after r e1 e2 st :
  after r e2 (after r e1 st) =
  after r (mkEffect (e_payload e2) (e_alerts e1 ++ e_alerts e2)
                    (e_trace e1 ++ e_trace e2)) st.
Proof.
  unfold after. simpl. rewrite list_insert_insert_eq, <- !app_assoc.
  reflexivity.
Qed.

(** An effect that adds no alert and leaves the object as it is changes
    only the trace. *)
Lemma after_trace_only r p t st :
  heap st !! r = Some p ->
  after r (mkEffect p [] t) st = mkState (self st) (heap st) (trace st ++ t).
Proof.
  intros H. destruct st as [[ra al] h tr]. unfold after. simpl in *.
  rewrite app_nil_r, list_insert_id by exact H. reflexivity.
Qed.

Lemma process_alerts_eq cfg r data st p :
  heap st !! r = Some p ->
  process_alerts cfg r data st =
  (inr tt, after r (process_alerts_eff cfg r p data) st).
Proof.
  intros H. destruct st as [[ra al] h tr]. simpl in H.
  assert (Hlt : r < length h) by (eapply lookup_lt_Some, H).
  unfold process_alerts, call_classify_record, call_rules_process, bind,
    emit, deref, assign, log, extend_alerts, ret, after, process_alerts_eff.
  simpl. rewrite H. simpl.
  rewrite list_lookup_insert_eq by exact Hlt.
  destruct (valid (classify_record cfg p data)) eqn:Hv.
  - simpl. rewrite list_lookup_insert_eq by exact Hlt. simpl.
    destruct (StreamRules_process (classify_record cfg p data)) eqn:Hr; simpl.
    + rewrite app_nil_r, <- app_assoc. simpl. rewrite <- app_assoc. reflexivity.
    + rewrite <- !app_assoc. reflexivity.
  - simpl. unfold emit. simpl. rewrite app_nil_r, <- !app_assoc. reflexivity.
Qed.

Lemma call_refresh_record_eq r data st p :
  heap st !! r = Some p ->
  call_refresh_record r data st =
  (inr tt, after r (mkEffect (refresh_record p data) []
                             [RefreshRecord r p data]) st).
Proof.
  intros H. destruct st as [[ra al] h tr]. simpl in H.
  unfold call_refresh_record, bind, emit, deref, assign, after. simpl.
  rewrite H. simpl. rewrite app_nil_r. reflexivity.
Qed.

Lemma s3_lines_eq cfg r lines : forall st p,
  heap st !! r = Some p ->
  s3_lines r cfg lines st = (inr tt, after r (s3_lines_eff cfg r p lines) st).
Proof.
  induction lines as [|line rest IH]; intros st p H.
  - simpl. rewrite (after_trace_only r p [] st H), app_nil_r.
    destruct st; reflexivity.
  - simpl.
    erewrite bind_inr by (apply call_refresh_record_eq; exact H).
    erewrite bind_inr
      by (apply process_alerts_eq; eapply after_heap_lookup; exact H).
    erewrite IH by (eapply after_heap_lookup, after_heap_lookup; exact H).
    rewrite !after_after. simpl. reflexivity.
Qed.

Lemma emit_eq a st :
  emit a st = (inr tt, mkState (self st) (heap st) (trace st ++ [a])).
Proof. reflexivity. Qed.

Lemma after_cons_trace r e a b st :
  after r e (mkState (self st) (heap st) ((trace st ++ [a]) ++ [b])) =
  after r (mkEffect (e_payload e) (e_alerts e) (a :: b :: e_trace e)) st.
Proof. unfold after. simpl. rewrite <- !app_assoc. reflexivity. Qed.

Lemma s3_process_eq cfg r st p :
  heap st !! r = Some p ->
  s3_process r cfg st = (inr tt, after r (s3_process_eff cfg r p) st).
Proof.
  intros H. unfold s3_process.
  erewrite bind_inr by apply emit_eq.
  erewrite bind_inr by (apply deref_eq; exact H).
  erewrite bind_inr by apply emit_eq. simpl.
  erewrite s3_lines_eq by exact H.
  rewrite after_cons_trace. reflexivity.
Qed.

Lemma kinesis_process_eq cfg r st p :
  heap st !! r = Some p ->
  kinesis_process r cfg st = (inr tt, after r (kinesis_process_eff cfg r p) st).
Proof.
  intros H. unfold kinesis_process.
  erewrite bind_inr by apply emit_eq.
  erewrite bind_inr by (apply deref_eq; exact H).
  erewrite bind_inr by apply emit_eq. simpl.
  erewrite process_alerts_eq by exact H.
  rewrite after_cons_trace. reflexivity.
Qed.

Lemma sns_process_eq cfg r st p :
  heap st !! r = Some p ->
  sns_process r cfg st = (inr tt, after r (sns_process_eff cfg r p) st).
Proof.
  intros H. unfold sns_process.
  erewrite bind_inr by apply emit_eq.
  erewrite bind_inr by (apply deref_eq; exact H).
  erewrite bind_inr by apply emit_eq. simpl.
  erewrite process_alerts_eq by exact H.
  rewrite after_cons_trace. reflexivity.
Qed.

Lemma dispatch_eq cfg r st p :
  heap st !! r = Some p ->
  (if negb (valid_source p) then ret tt
   else if String.eqb (service p) "s3" then s3_process r cfg
   else if String.eqb (service p) "kinesis" then kinesis_process r cfg
   else if String.eqb (service p) "sns" then sns_process r cfg
   else log INFO "Unsupported service: %s" [ArgStr (service p)]) st =
  (inr tt, after r (dispatch_eff cfg r p) st).
Proof.
  intros H. unfold dispatch_eff.
  destruct (negb (valid_source p)).
  { rewrite (after_trace_only r p [] st H), app_nil_r. destruct st; reflexivity. }
  destruct (String.eqb (service p) "s3"); [apply s3_process_eq, H|].
  destruct (String.eqb (service p) "kinesis"); [apply kinesis_process_eq, H|].
  destruct (String.eqb (service p) "sns"); [apply sns_process_eq, H|].
  rewrite (after_trace_only r p _ st H). reflexivity.
Qed.

Lemma run_record_eq cfg record st :
  run_record cfg record st = (inr (length (heap st)), after_record cfg record st).
Proof.
  destruct st as [[ra al] h tr].
  unfold run_record, new_payload, new_classifier, call_map_source.
  unfold bind at 1. simpl.
  unfold bind at 1. unfold bind at 1. simpl.
  unfold bind at 1. unfold bind at 1. unfold deref at 1. simpl.
  rewrite list_lookup_middle by reflexivity. simpl.
  unfold bind at 1. unfold deref at 1. simpl.
  rewrite list_lookup_insert_eq by (rewrite length_app; simpl; lia).
  unfold bind at 1.
  rewrite (dispatch_eq cfg (length h) _ (map_source cfg (StreamPayload record)))
    by (simpl; apply list_lookup_insert_eq; rewrite length_app; simpl; lia).
  unfold ret, after, after_record, run_record_eff. simpl.
  rewrite list_insert_insert_eq.
  rewrite insert_app_r_alt by reflexivity.
  rewrite Nat.sub_diag. simpl. rewrite <- !app_assoc. reflexivity.
Qed.

Lemma run_loop_eq cfg records : forall st v,
  run_loop cfg records v st =
  (inr (last_ref (length (heap st)) records v), after_loop cfg records st).
Proof.
  induction records as [|record rest IH]; intros st v.
  - destruct st as [[ra al] h tr]. unfold after_loop, loop_alerts,
      loop_payloads, loop_trace. simpl. rewrite !app_nil_r. reflexivity.
  - simpl. erewrite bind_inr by apply run_record_eq.
    rewrite IH. f_equal.
    + f_equal. unfold after_record. simpl. rewrite length_app. simpl.
      destruct rest; simpl; f_equal; lia.
    + unfold after_loop, after_record, loop_alerts, loop_payloads, loop_trace.
      simpl. rewrite length_app. simpl.
      replace (length (heap st) + 1) with (S (length (heap st))) by lia.
      destruct (run_loop_eff cfg (S (length (heap st))) rest) as [[ps als] t].
      simpl. rewrite <- !app_assoc. reflexivity.
Qed.

Lemma send_alerts_live env r p st :
  heap st !! r = Some p ->
  send_alerts env (Some r) st =
  (inr tt,
   mkState (self st) (heap st)
     (trace st ++ Call (send_alerts_call env (Some r)) ::
      delivery_steps env (alerts (self st)) (valid p))).
Proof.
  intros H. destruct st as [[ra al] h tr]. simpl in H.
  unfold send_alerts, read_valid, delivery_steps, bind, emit, get_self, log,
    deref, ret. simpl.
  destruct al as [|a al]; simpl.
  - rewrite H. simpl. destruct (valid p); simpl.
    + unfold emit. simpl. rewrite <- app_assoc. reflexivity.
    + reflexivity.
  - destruct (String.eqb (lambda_alias env) "development"); simpl;
      unfold emit; simpl; rewrite <- !app_assoc; reflexivity.
Qed.

Lemma send_alerts_accumulated env v st :
  alerts (self st) <> [] ->
  send_alerts env v st =
  (inr tt,
   mkState (self st) (heap st)
     (trace st ++ Call (send_alerts_call env v) ::
      delivery_steps env (alerts (self st)) false)).
Proof.
  intros H. destruct st as [[ra al] h tr]. simpl in H.
  unfold send_alerts, delivery_steps, bind, emit, get_self, log, ret. simpl.
  destruct al as [|a al]; [congruence|]. simpl.
  destruct (String.eqb (lambda_alias env) "development"); simpl;
    unfold emit; simpl; rewrite <- !app_assoc; reflexivity.
Qed.

Lemma send_alerts_absent env st :
  alerts (self st) = [] ->
  send_alerts env None st =
  (inl (AttributeError "valid"),
   mkState (self st) (heap st) (trace st ++ [Call (send_alerts_call env None)])).
Proof.
  intros H. destruct st as [[ra al] h tr]. simpl in H. subst al.
  reflexivity.
Qed.

(** [run] is its prelude, its loop, and then the return or the delivery. *)
Lemma run_eq event context st :
  run event context st =
  let st' := at_delivery event context st in
  if truthy_flag (return_alerts (self st)) then
    (inr (Some (alerts (self st'))), st')
  else
    match last_ref (length (heap st)) (get_records event) None with
    | None => (inl (UnboundLocalError "payload"), st')
    | Some r =>
        bind (send_alerts (load_env context) (Some r)) (fun _ => ret None) st'
    end.
Proof.
  unfold run.
  unfold log. erewrite bind_inr by apply emit_eq.
  erewrite bind_inr by apply emit_eq.
  erewrite bind_inr by apply emit_eq.
  erewrite bind_inr by apply run_loop_eq.
  unfold at_delivery, before_loop, run_prelude. simpl.
  rewrite <- !app_assoc. simpl.
  unfold bind at 1. unfold get_self. simpl.
  destruct (truthy_flag (return_alerts (self st))); [reflexivity|].
  destruct (last_ref (length (heap st)) (get_records event) None);
    reflexivity.
Qed.

Lemma run_loop_eff_app cfg rs x : forall base,
  run_loop_eff cfg base (rs ++ [x]) =
  let e := run_record_eff cfg (base + length rs) x in
  let '(ps, als, tr) := run_loop_eff cfg base rs in
  (ps ++ [e_payload e], als ++ e_alerts e, tr ++ e_trace e).
Proof.
  induction rs as [|y rs IH]; intros base.
  - simpl. rewrite Nat.add_0_r, !app_nil_r. reflexivity.
  - simpl. rewrite IH.
    replace (S base + length rs) with (base + S (length rs)) by lia.
    destruct (run_loop_eff cfg (S base) rs) as [[ps als] tr]. simpl.
    rewrite <- !app_assoc. reflexivity.
Qed.

Lemma loop_payloads_length cfg records : forall base,
  length (loop_payloads cfg base records) = length records.
Proof.
  unfold loop_payloads.
  induction records as [|x rs IH]; intros base; [reflexivity|].
  simpl. specialize (IH (S base)).
  destruct (run_loop_eff cfg (S base) rs) as [[ps als] tr]. simpl in *.
  congruence.
Qed.

Lemma last_ref_app base rs x v :
  last_ref base (rs ++ [x]) v = Some (base + length rs).
Proof.
  unfold last_ref. destruct (rs ++ [x]) eqn:E.
  - destruct rs; discriminate.
  - rewrite <- E, length_app. simpl. f_equal. lia.
Qed.

End Equations.

(** ** Properties of the Alert Pipeline and of the Delivery Decision *)

Section Pipeline.
Context `{C : Collaborators}.

Lemma since_app (t t' : list Action) : since (length t) (t ++ t') = t'.
Proof. unfold since. apply drop_app_length. Qed.

(** C8.  A data unit that classification marks not valid: [process_alerts]
    returns normally, logs exactly one message, at error level, whose
    arguments are the rendering of the payload and the serialized raw
    record, does not call the rule engine, and leaves the dispatcher, and
    so its alert accumulator, as it was. *)
Theorem invalid_data_logged_and_dropped cfg r data st p :
  heap st !! r = Some p ->
  valid (classify_record cfg p data) = false ->
  exists st',
    process_alerts cfg r data st = (inr tt, st') /\
    self st' = self st /\
    List.filter is_log (since (length (trace st)) (trace st')) =
      [Log ERROR "Invalid data: %s\n%s"
         [ArgStr (payload_str (classify_record cfg p data));
          ArgStr (json_dumps_raw (raw_record (classify_record cfg p data)))]] /\
    List.filter is_error_log (since (length (trace st)) (trace st')) =
      List.filter is_log (since (length (trace st)) (trace st')) /\
    List.filter is_rules_process (since (length (trace st)) (trace st')) = [].
Proof.
  intros H Hv. eexists. split; [apply process_alerts_eq, H|].
  unfold after, process_alerts_eff. simpl. rewrite Hv, since_app. simpl.
  rewrite app_nil_r. destruct st as [[ra al] h tr]. simpl. repeat split.
Qed.

(** C5.  The Delivery Decision on a non-empty accumulator.  In the
    development stage it logs the number of alerts and their serialization
    and calls no sink; in any other stage it makes exactly one sink call,
    with the whole accumulator and the environment, and logs nothing.  The
    accumulator itself is left as it is. *)
Theorem delivery_of_accumulated_alerts env payload st :
  alerts (self st) <> [] ->
  exists st',
    send_alerts env payload st = (inr tt, st') /\
    self st' = self st /\
    if String.eqb (lambda_alias env) "development" then
      List.filter is_sink (since (length (trace st)) (trace st')) = [] /\
      List.filter is_log (since (length (trace st)) (trace st')) =
        [Log INFO "%s alerts triggered" [ArgNat (length (alerts (self st)))];
         Log INFO "\n%s\n" [ArgStr (json_dumps_alerts (alerts (self st)))]]
    else
      List.filter is_sink (since (length (trace st)) (trace st')) =
        [Sink (alerts (self st)) env] /\
      List.filter is_log (since (length (trace st)) (trace st')) = [].
Proof.
  intros H. eexists. split; [apply send_alerts_accumulated, H|].
  simpl. split; [reflexivity|]. rewrite since_app. unfold delivery_steps.
  destruct (alerts (self st)) as [|a al]; [congruence|]. simpl.
  destruct (String.eqb (lambda_alias env) "development"); simpl; split;
    reflexivity.
Qed.

(** C4.  A record whose source the configuration does not know: the loop
    body builds the payload, runs the source mapping and stops there.  No
    pre-parser is called, the Alert Pipeline is not invoked, and the
    dispatcher, and so its alert accumulator, is as it was. *)
Theorem unknown_source_skipped cfg record st :
  valid_source (map_source cfg (StreamPayload record)) = false ->
  exists st',
    run_record cfg record st = (inr (length (heap st)), st') /\
    self st' = self st /\
    since (length (trace st)) (trace st') =
      [NewPayload record (length (heap st)); NewClassifier cfg;
       MapSource (length (heap st)) (StreamPayload record)] /\
    List.filter is_pre_parse (since (length (trace st)) (trace st')) = [] /\
    process_alerts_calls (since (length (trace st)) (trace st')) = [].
Proof.
  intros H. eexists. split; [apply run_record_eq|].
  unfold after_record, run_record_eff, dispatch_eff. rewrite H. simpl.
  rewrite since_app, app_nil_r. destruct st as [[ra al] h tr]. simpl.
  repeat split.
Qed.

End Pipeline.

(** ** Properties of the archive extractor *)

Section Archive.
Context `{C : Collaborators}.

Lemma process_alerts_calls_app (t t' : list Action) :
  process_alerts_calls (t ++ t') =
  process_alerts_calls t ++ process_alerts_calls t'.
Proof. apply omap_app. Qed.

Lemma s3_lines_trace cfg r lines : forall p,
  e_trace (s3_lines_eff cfg r p lines) =
  flat_map (line_trace cfg r) (line_steps cfg p lines).
Proof.
  induction lines as [|line rest IH]; intros p; [reflexivity|].
  simpl. rewrite IH. unfold line_trace. simpl.
  destruct (valid (classify_record cfg (refresh_record p (rstrip line))
                                   (rstrip line))); reflexivity.
Qed.

Lemma line_steps_data cfg lines : forall p,
  map snd (line_steps cfg p lines) = map rstrip lines.
Proof.
  induction lines as [|line rest IH]; intros p; [reflexivity|].
  simpl. rewrite IH. reflexivity.
Qed.

Lemma line_trace_calls cfg r steps :
  process_alerts_calls (flat_map (line_trace cfg r) steps) =
  map (fun step => (r, snd step)) steps.
Proof.
  induction steps as [|[q d] steps IH]; [reflexivity|].
  change (flat_map (line_trace cfg r) ((q, d) :: steps))
    with (line_trace cfg r (q, d) ++ flat_map (line_trace cfg r) steps).
  rewrite process_alerts_calls_app, IH.
  unfold line_trace. simpl.
  destruct (valid (classify_record cfg (refresh_record q d) d)); reflexivity.
Qed.

Lemma unit_outcomes_app (t t' : list Action) :
  unit_outcomes (t ++ t') = unit_outcomes t ++ unit_outcomes t'.
Proof. apply omap_app. Qed.

(** The outcome of each line is the flag classification leaves on the
    refreshed object. *)
Lemma line_trace_outcomes cfg r steps :
  unit_outcomes (flat_map (line_trace cfg r) steps) =
  map (fun step =>
         valid (classify_record cfg (refresh_record (fst step) (snd step))
                                (snd step)))
      steps.
Proof.
  induction steps as [|[q d] steps IH]; [reflexivity|].
  change (flat_map (line_trace cfg r) ((q, d) :: steps))
    with (line_trace cfg r (q, d) ++ flat_map (line_trace cfg r) steps).
  rewrite unit_outcomes_app, IH. unfold line_trace. simpl.
  destruct (valid (classify_record cfg (refresh_record q d) d)); reflexivity.
Qed.

(** Under the contract of classification, that flag is the verdict on
    the line's own data, whatever the lines before it were. *)
Lemma line_steps_verdicts cfg p verdict :
  classification_sets_valid cfg p verdict ->
  forall lines q,
    refreshed_from cfg p q ->
    map (fun step =>
           valid (classify_record cfg (refresh_record (fst step) (snd step))
                                  (snd step)))
        (line_steps cfg q lines) =
    map (fun line => verdict (rstrip line)) lines.
Proof.
  intros Hc. induction lines as [|line rest IH]; intros q Hq; [reflexivity|].
  simpl. rewrite (Hc q (rstrip line) Hq). f_equal.
  apply IH. constructor. exact Hq.
Qed.

(** C3.  An archive record whose object has N lines: [s3_process] returns
    normally and invokes [process_alerts] exactly N times, in file order,
    each time on the same payload object [r] and on the line right-stripped.
    For each line the trace holds, in this order: the refresh of the object
    with the line's data, the invocation, the classification of the
    refreshed object on that data, and then rule evaluation or the error
    log, as the valid flag left by that classification decides.  No payload
    object is created.  And when classification sets the valid flag, as its
    contract says, validity does not carry over from line to line: each
    line is given to the rule engine or reported as invalid according to
    the verdict on its own data, whatever the lines before it were. *)
Theorem archive_record_processed_per_line cfg r st p :
  heap st !! r = Some p ->
  exists st',
    s3_process r cfg st = (inr tt, st') /\
    process_alerts_calls (since (length (trace st)) (trace st')) =
      map (fun line => (r, rstrip line)) (pre_parse_s3 (raw_record p)) /\
    length (process_alerts_calls (since (length (trace st)) (trace st'))) =
      length (pre_parse_s3 (raw_record p)) /\
    since (length (trace st)) (trace st') =
      Call (s3_process_call r) :: PreParseS3 (raw_record p) ::
      flat_map (line_trace cfg r)
               (line_steps cfg p (pre_parse_s3 (raw_record p))) /\
    map snd (line_steps cfg p (pre_parse_s3 (raw_record p))) =
      map rstrip (pre_parse_s3 (raw_record p)) /\
    length (heap st') = length (heap st) /\
    (forall verdict,
       classification_sets_valid cfg p verdict ->
       unit_outcomes (since (length (trace st)) (trace st')) =
       map (fun line => verdict (rstrip line)) (pre_parse_s3 (raw_record p))).
Proof.
  intros H. eexists. split; [apply s3_process_eq, H|].
  rewrite after_heap_length. unfold after. simpl. rewrite since_app.
  rewrite s3_lines_trace.
  assert (Hcalls :
    process_alerts_calls
      (Call (s3_process_call r) :: PreParseS3 (raw_record p) ::
       flat_map (line_trace cfg r)
                (line_steps cfg p (pre_parse_s3 (raw_record p)))) =
    map (fun line => (r, rstrip line)) (pre_parse_s3 (raw_record p))).
  { change (process_alerts_calls
              (flat_map (line_trace cfg r)
                 (line_steps cfg p (pre_parse_s3 (raw_record p)))) =
            map (fun line => (r, rstrip line)) (pre_parse_s3 (raw_record p))).
    rewrite line_trace_calls.
    rewrite <- (map_map rstrip (fun d => (r, d))).
    rewrite <- (line_steps_data cfg _ p), map_map. reflexivity. }
  rewrite Hcalls, length_map, line_steps_data.
  do 5 (split; [reflexivity|]).
  intros verdict Hc.
  change (unit_outcomes
            (flat_map (line_trace cfg r)
               (line_steps cfg p (pre_parse_s3 (raw_record p)))) =
          map (fun line => verdict (rstrip line)) (pre_parse_s3 (raw_record p))).
  rewrite line_trace_outcomes.
  apply (line_steps_verdicts cfg p verdict Hc). constructor.
Qed.

End Archive.

(** ** Properties of a whole invocation *)

Section Invocation.
Context `{C : Collaborators}.

Lemma concat_filter_truthy {A} (ls : list (list A)) :
  concat (List.filter truthy_list ls) = concat ls.
Proof.
  induction ls as [|l ls IH]; [reflexivity|].
  destruct l; simpl; rewrite IH; reflexivity.
Qed.

Lemma rule_results_app (t t' : list Action) :
  rule_results (t ++ t') = rule_results t ++ rule_results t'.
Proof. apply omap_app. Qed.

Lemma send_alerts_calls_app (t t' : list Action) :
  send_alerts_calls (t ++ t') = send_alerts_calls t ++ send_alerts_calls t'.
Proof. apply omap_app. Qed.

Lemma process_alerts_results cfg r p data :
  e_alerts (process_alerts_eff cfg r p data) = concat (unit_results cfg p data) /\
  rule_results (e_trace (process_alerts_eff cfg r p data)) = unit_results cfg p data.
Proof.
  unfold process_alerts_eff, unit_results. simpl.
  destruct (valid (classify_record cfg p data)); simpl;
    rewrite ?app_nil_r; split; reflexivity.
Qed.

Lemma s3_lines_results cfg r lines : forall p,
  e_alerts (s3_lines_eff cfg r p lines) = concat (archive_results cfg p lines) /\
  rule_results (e_trace (s3_lines_eff cfg r p lines)) = archive_results cfg p lines.
Proof.
  induction lines as [|line rest IH]; intros p; [split; reflexivity|].
  cbn [s3_lines_eff archive_results e_alerts e_trace].
  destruct (process_alerts_results cfg r (refresh_record p (rstrip line))
              (rstrip line)) as [Ha Ht].
  destruct (IH (e_payload (process_alerts_eff cfg r
                  (refresh_record p (rstrip line)) (rstrip line)))) as [IHa IHt].
  split.
  - rewrite concat_app, Ha, IHa. reflexivity.
  - change (RefreshRecord r p (rstrip line) :: ?t) with
      ([RefreshRecord r p (rstrip line)] ++ t).
    rewrite !rule_results_app, Ht, IHt. reflexivity.
Qed.

Lemma run_record_results cfg r record :
  e_alerts (run_record_eff cfg r record) = concat (record_results cfg record) /\
  rule_results (e_trace (run_record_eff cfg r record)) = record_results cfg record.
Proof.
  unfold run_record_eff, record_results, dispatch_eff.
  cbn [e_alerts e_trace].
  set (p := map_source cfg (StreamPayload record)).
  change (NewPayload record r :: NewClassifier cfg ::
          MapSource r (StreamPayload record) :: ?t)
    with ([NewPayload record r; NewClassifier cfg;
           MapSource r (StreamPayload record)] ++ t).
  rewrite rule_results_app. simpl (rule_results [_; _; _]). rewrite app_nil_l.
  destruct (valid_source p); simpl negb; cbv iota; [|split; reflexivity].
  destruct (String.eqb (service p) "s3").
  { unfold s3_process_eff. cbn [e_alerts e_trace].
    apply (s3_lines_results cfg r (pre_parse_s3 (raw_record p)) p). }
  destruct (String.eqb (service p) "kinesis").
  { unfold kinesis_process_eff. cbn [e_alerts e_trace].
    apply (process_alerts_results cfg r p). }
  destruct (String.eqb (service p) "sns").
  { unfold sns_process_eff. cbn [e_alerts e_trace].
    apply (process_alerts_results cfg r p). }
  split; reflexivity.
Qed.

Lemma loop_results cfg records : forall base,
  loop_alerts cfg base records = concat (flat_map (record_results cfg) records) /\
  rule_results (loop_trace cfg base records) =
    flat_map (record_results cfg) records.
Proof.
  unfold loop_alerts, loop_trace.
  induction records as [|record rest IH]; intros base; [split; reflexivity|].
  cbn [run_loop_eff]. destruct (IH (S base)) as [IHa IHt].
  destruct (run_loop_eff cfg (S base) rest) as [[ps als] tr].
  cbn [fst snd] in *.
  destruct (run_record_results cfg base record) as [Ha Ht].
  change (flat_map (record_results cfg) (record :: rest))
    with (record_results cfg record ++ flat_map (record_results cfg) rest).
  rewrite concat_app, rule_results_app, Ha, Ht, IHa, IHt. split; reflexivity.
Qed.

Lemma delivery_steps_rules env accumulated v :
  rule_results (delivery_steps env accumulated v) = [].
Proof.
  unfold delivery_steps.
  destruct (truthy_list accumulated), (String.eqb (lambda_alias env) "development"),
    v; reflexivity.
Qed.

(** When the loop is over, the payload built from the last record is at
    the address the local variable [payload] holds. *)
Lemma at_delivery_last event context st rs x :
  get_records event = rs ++ [x] ->
  heap (at_delivery event context st) !! (length (heap st) + length rs) =
  Some (e_payload (run_record_eff load_config (length (heap st) + length rs) x)).
Proof.
  intros E. unfold at_delivery, after_loop, before_loop, loop_payloads.
  rewrite E. simpl. rewrite run_loop_eff_app.
  pose proof (loop_payloads_length load_config rs (length (heap st))) as Hlen.
  unfold loop_payloads in Hlen.
  destruct (run_loop_eff load_config (length (heap st)) rs) as [[ps als] tr].
  simpl in *. rewrite app_assoc. apply list_lookup_middle.
  rewrite length_app. lia.
Qed.

(** A non-empty batch and no return-alerts flag: the loop, then one
    invocation of [send_alerts] on the payload of the last record. *)
Lemma run_delivers event context st rs x :
  get_records event = rs ++ [x] ->
  truthy_flag (return_alerts (self st)) = false ->
  run event context st =
  (inr None,
   mkState (self (at_delivery event context st))
     (heap (at_delivery event context st))
     (trace (at_delivery event context st) ++
      Call (send_alerts_call (load_env context)
              (Some (length (heap st) + length rs))) ::
      delivery_steps (load_env context)
        (alerts (self (at_delivery event context st)))
        (valid (e_payload (run_record_eff load_config
                             (length (heap st) + length rs) x))))).
Proof.
  intros E Hf. rewrite run_eq. cbv zeta. rewrite Hf, E, last_ref_app.
  erewrite bind_inr by (apply send_alerts_live, at_delivery_last, E).
  reflexivity.
Qed.

(** Whatever the outcome of [run], its final state is the state at the end
    of the loop, with the steps of the delivery, if any, added to the
    trace; no rule is evaluated after the loop. *)
Lemma run_final event context st :
  exists t,
    (run event context st).2 =
      mkState (self (at_delivery event context st))
              (heap (at_delivery event context st))
              (trace (at_delivery event context st) ++ t) /\
    rule_results t = [].
Proof.
  destruct (truthy_flag (return_alerts (self st))) eqn:Hf.
  - exists []. rewrite run_eq. cbv zeta. rewrite Hf. cbn [snd].
    rewrite app_nil_r. split; [|reflexivity].
    destruct (at_delivery event context st); reflexivity.
  - destruct (get_records event) as [|y l] eqn:E.
    + exists []. rewrite run_eq. cbv zeta. rewrite Hf, E. cbn [snd last_ref].
      rewrite app_nil_r. split; [|reflexivity].
      destruct (at_delivery event context st); reflexivity.
    + destruct (exists_last (l := y :: l)) as [rs [x E']]; [discriminate|].
      rewrite E' in E.
      eexists. rewrite (run_delivers event context st rs x E Hf). cbn [snd].
      split; [reflexivity|]. apply delivery_steps_rules.
Qed.

(** [run] adds the alerts of its batch to the accumulator it finds. *)
Lemma run_accumulates event context st :
  alerts (self (run event context st).2) =
  alerts (self st) ++ expected_alerts load_config (get_records event) /\
  rule_results (since (length (trace st)) (trace (run event context st).2)) =
  flat_map (record_results load_config) (get_records event).
Proof.
  destruct (run_final event context st) as [t [-> Ht]]. simpl.
  destruct (loop_results load_config (get_records event) (length (heap st)))
    as [Ha Hr].
  unfold expected_alerts. rewrite concat_filter_truthy, Ha. split; [reflexivity|].
  rewrite <- !app_assoc, since_app, !rule_results_app, Hr, Ht, app_nil_r.
  reflexivity.
Qed.

End Invocation.

(** ** The payload the Delivery Decision receives *)

Section LastPayload.
Context `{C : Collaborators}.

Lemma new_payloads_app (t t' : list Action) :
  new_payloads (t ++ t') = new_payloads t ++ new_payloads t'.
Proof. apply omap_app. Qed.

Lemma classified_app (t t' : list Action) :
  classified (t ++ t') = classified t ++ classified t'.
Proof. apply omap_app. Qed.

Lemma quiet_on_app r t t' : quiet_on r t -> quiet_on r t' -> quiet_on r (t ++ t').
Proof.
  intros (Hn & Hs & Hc) (Hn' & Hs' & Hc'). unfold quiet_on.
  rewrite new_payloads_app, send_alerts_calls_app, classified_app, Hn, Hn', Hs, Hs'.
  repeat split. apply Forall_app. split; assumption.
Qed.

Lemma process_alerts_quiet cfg r p data :
  quiet_on r (e_trace (process_alerts_eff cfg r p data)).
Proof.
  unfold quiet_on, process_alerts_eff. simpl.
  destruct (valid (classify_record cfg p data)); simpl;
    repeat split; repeat constructor.
Qed.

Lemma s3_lines_quiet cfg r lines : forall p,
  quiet_on r (e_trace (s3_lines_eff cfg r p lines)).
Proof.
  induction lines as [|line rest IH]; intros p.
  - repeat split. constructor.
  - cbn [s3_lines_eff e_trace].
    apply (quiet_on_app r [RefreshRecord r p (rstrip line)]).
    + repeat split. constructor.
    + apply quiet_on_app; [apply process_alerts_quiet | apply IH].
Qed.

Lemma dispatch_quiet cfg r p : quiet_on r (e_trace (dispatch_eff cfg r p)).
Proof.
  unfold dispatch_eff.
  destruct (negb (valid_source p)); [repeat split; constructor|].
  destruct (String.eqb (service p) "s3").
  { apply (quiet_on_app r [Call (s3_process_call r); PreParseS3 (raw_record p)]);
      [repeat split; constructor | apply s3_lines_quiet]. }
  destruct (String.eqb (service p) "kinesis").
  { apply (quiet_on_app r [Call (kinesis_process_call r);
                           PreParseKinesis (raw_record p)]);
      [repeat split; constructor | apply process_alerts_quiet]. }
  destruct (String.eqb (service p) "sns").
  { apply (quiet_on_app r [Call (sns_process_call r); PreParseSns (raw_record p)]);
      [repeat split; constructor | apply process_alerts_quiet]. }
  repeat split; constructor.
Qed.

(** One iteration creates one payload object, calls no delivery and
    classifies no object but its own. *)
Lemma run_record_observed cfg r record :
  new_payloads (e_trace (run_record_eff cfg r record)) = [(record, r)] /\
  send_alerts_calls (e_trace (run_record_eff cfg r record)) = [] /\
  Forall (eq r) (classified (e_trace (run_record_eff cfg r record))).
Proof.
  destruct (dispatch_quiet cfg r (map_source cfg (StreamPayload record)))
    as (Hn & Hs & Hc).
  unfold run_record_eff. cbn [e_trace].
  change (NewPayload record r :: NewClassifier cfg ::
          MapSource r (StreamPayload record) :: ?t)
    with ([NewPayload record r; NewClassifier cfg;
           MapSource r (StreamPayload record)] ++ t).
  rewrite new_payloads_app, send_alerts_calls_app, classified_app, Hn, Hs.
  repeat split. exact Hc.
Qed.

(** The loop calls no delivery and classifies only the objects it
    creates. *)
Lemma loop_observed cfg records : forall base,
  send_alerts_calls (loop_trace cfg base records) = [] /\
  Forall (fun r => r < base + length records)
         (classified (loop_trace cfg base records)).
Proof.
  unfold loop_trace.
  induction records as [|record rest IH]; intros base.
  - split; [reflexivity | constructor].
  - cbn [run_loop_eff]. destruct (IH (S base)) as [IHs IHc].
    destruct (run_loop_eff cfg (S base) rest) as [[ps als] tr].
    cbn [fst snd length] in *.
    destruct (run_record_observed cfg base record) as (_ & Hs & Hc).
    rewrite send_alerts_calls_app, classified_app, Hs, IHs.
    split; [reflexivity|]. apply Forall_app. split.
    + eapply Forall_impl; [exact Hc|]. simpl. intros r <-. lia.
    + eapply Forall_impl; [exact IHc|]. simpl. intros r Hr. lia.
Qed.

(** The trace of the loop on a batch that ends with record [x]. *)
Lemma loop_trace_last cfg base rs x :
  loop_trace cfg base (rs ++ [x]) =
  loop_trace cfg base rs ++ e_trace (run_record_eff cfg (base + length rs) x).
Proof.
  unfold loop_trace. rewrite run_loop_eff_app.
  destruct (run_loop_eff cfg base rs) as [[ps als] tr]. reflexivity.
Qed.

(** A record skipped for its source leaves its payload as the source
    mapping left it. *)
Lemma skipped_record cfg r record :
  valid_source (map_source cfg (StreamPayload record)) = false ->
  e_payload (run_record_eff cfg r record) = map_source cfg (StreamPayload record) /\
  classified (e_trace (run_record_eff cfg r record)) = [].
Proof.
  intros H. unfold run_record_eff, dispatch_eff. rewrite H. split; reflexivity.
Qed.

End LastPayload.

(** ** Properties of [run] *)

Section Run.
Context `{C : Collaborators}.

Lemma delivery_steps_observed env accumulated v :
  new_payloads (delivery_steps env accumulated v) = [] /\
  send_alerts_calls (delivery_steps env accumulated v) = [] /\
  classified (delivery_steps env accumulated v) = [].
Proof.
  unfold delivery_steps.
  destruct (truthy_list accumulated), (String.eqb (lambda_alias env) "development"),
    v; repeat split.
Qed.

(** What [run] adds to the trace when it delivers: its prelude, the loop,
    the invocation of [send_alerts] and the steps of the latter. *)
Lemma run_delivers_trace event context st rs x :
  get_records event = rs ++ [x] ->
  truthy_flag (return_alerts (self st)) = false ->
  since (length (trace st)) (trace (run event context st).2) =
  run_prelude event context ++
  loop_trace load_config (length (heap st)) rs ++
  e_trace (run_record_eff load_config (length (heap st) + length rs) x) ++
  Call (send_alerts_call (load_env context) (Some (length (heap st) + length rs))) ::
  delivery_steps (load_env context)
    (alerts (self (run event context st).2))
    (valid (e_payload (run_record_eff load_config
                         (length (heap st) + length rs) x))).
Proof.
  intros E Hf. rewrite (run_delivers event context st rs x E Hf). cbn [snd].
  unfold at_delivery, after_loop, before_loop. cbn [self heap trace].
  rewrite E, loop_trace_last, <- !app_assoc, since_app. reflexivity.
Qed.

(** C2.  After [run] on a freshly constructed dispatcher, whatever its
    outcome, the alert accumulator is the concatenation of the non-empty
    results that the rule engine returned during the invocation, in the
    order of the calls; and these results are those of the data units of
    the batch, record after record and, within an archive record, line
    after line. *)
Theorem accumulator_is_concatenation_of_results return_alerts h t event context :
  alerts (self (run event context
                  (mkState (StreamAlert_init return_alerts) h t)).2) =
    concat (List.filter truthy_list
              (rule_results
                 (since (length t)
                    (trace (run event context
                              (mkState (StreamAlert_init return_alerts) h t)).2)))) /\
  rule_results
    (since (length t)
       (trace (run event context
                 (mkState (StreamAlert_init return_alerts) h t)).2)) =
    flat_map (record_results load_config) (get_records event) /\
  alerts (self (run event context
                  (mkState (StreamAlert_init return_alerts) h t)).2) =
    expected_alerts load_config (get_records event).
Proof.
  destruct (run_accumulates event context
              (mkState (StreamAlert_init return_alerts) h t)) as [Ha Hr].
  cbn [self trace alerts StreamAlert_init app] in Ha, Hr.
  rewrite Hr, Ha. repeat split.
Qed.

(** C6, as the code has it.  The accumulator is empty when the dispatcher
    is constructed; [run] does not empty it, and adds the alerts of its
    batch to what it holds; so the sequence that the first [run] of a
    dispatcher constructed with the return-alerts flag returns holds the
    alerts of the records of its batch and no other. *)
Theorem accumulator_initialised_at_construction :
  (forall return_alerts, alerts (StreamAlert_init return_alerts) = []) /\
  (forall event context st,
     alerts (self (run event context st).2) =
     alerts (self st) ++ expected_alerts load_config (get_records event)) /\
  (forall event context h t,
     (run event context (mkState (StreamAlert_init (Some true)) h t)).1 =
     inr (Some (expected_alerts load_config (get_records event)))).
Proof.
  split; [reflexivity|]. split.
  - intros event context st. apply run_accumulates.
  - intros event context h t.
    pose proof (run_accumulates event context
                  (mkState (StreamAlert_init (Some true)) h t)) as [Ha _].
    rewrite run_eq in *. cbv zeta in *. cbn [self return_alerts StreamAlert_init
      truthy_flag fst snd] in *. rewrite Ha. reflexivity.
Qed.

(** C10.  A batch that ends with record [x], no return-alerts flag: [run]
    returns normally; the last payload object it has created is the one
    built from [x]; it invokes [send_alerts] once, with the environment and
    that object; and the steps of [send_alerts] are those of the Delivery
    Decision on the valid flag of that object.  When the source mapping
    marks [x] not valid, the object is as the source mapping left it, no
    classification has run on it, and it is its valid flag that the
    Delivery Decision reads. *)
Theorem delivery_receives_last_payload event context st rs x :
  get_records event = rs ++ [x] ->
  truthy_flag (return_alerts (self st)) = false ->
  exists st' t0 p,
    run event context st = (inr None, st') /\
    last (new_payloads (since (length (trace st)) (trace st'))) =
      Some (x, length (heap st) + length rs) /\
    send_alerts_calls (since (length (trace st)) (trace st')) =
      [(load_env context, Some (length (heap st) + length rs))] /\
    heap st' !! (length (heap st) + length rs) = Some p /\
    since (length (trace st)) (trace st') =
      t0 ++
      Call (send_alerts_call (load_env context)
              (Some (length (heap st) + length rs))) ::
      delivery_steps (load_env context) (alerts (self st')) (valid p) /\
    (valid_source (map_source load_config (StreamPayload x)) = false ->
     p = map_source load_config (StreamPayload x) /\
     ~ In (length (heap st) + length rs)
          (classified (since (length (trace st)) (trace st')))).
Proof.
  intros E Hf.
  pose proof (run_delivers_trace event context st rs x E Hf) as Ht.
  pose proof (run_delivers event context st rs x E Hf) as Hrun.
  pose proof (at_delivery_last event context st rs x E) as Hlast.
  rewrite Hrun in Ht. cbn [snd self] in Ht.
  set (r := length (heap st) + length rs) in *.
  set (e := run_record_eff load_config r x) in *.
  destruct (delivery_steps_observed (load_env context)
              (alerts (self (at_delivery event context st)))
              (valid (e_payload e))) as (Dn & Ds & Dc).
  destruct (run_record_observed load_config r x) as (Rn & Rs & Rc).
  destruct (loop_observed load_config rs (length (heap st))) as (Ls & Lc).
  fold e in Rn, Rs, Rc.
  eexists. exists (run_prelude event context ++
                   loop_trace load_config (length (heap st)) rs ++ e_trace e).
  exists (e_payload e).
  split; [exact Hrun|]. cbn [trace heap self] in Ht |- *. rewrite Ht.
  change (Call ?c :: ?d) with ([Call c] ++ d).
  repeat split.
  - rewrite !new_payloads_app, Rn, Dn. simpl. rewrite ?app_nil_r.
    apply last_snoc.
  - rewrite !send_alerts_calls_app, Ls, Rs, Ds. reflexivity.
  - exact Hlast.
  - rewrite <- !app_assoc. reflexivity.
  - apply (skipped_record load_config r x H).
  - destruct (skipped_record load_config r x H) as [_ Hnone]. fold e in Hnone.
    rewrite !classified_app, Hnone, Dc. simpl. rewrite ?app_nil_r.
    intros Hin. rewrite Forall_forall in Lc.
    apply list_elem_of_In, Lc in Hin. unfold r in Hin. lia.
Qed.

(** With the return-alerts flag, [run] returns the accumulator and never
    invokes [send_alerts]. *)
Lemma run_returns_accumulated event context st :
  truthy_flag (return_alerts (self st)) = true ->
  run event context st =
    (inr (Some (alerts (self (at_delivery event context st)))),
     at_delivery event context st) /\
  send_alerts_calls
    (since (length (trace st)) (trace (at_delivery event context st))) = [].
Proof.
  intros Hf. rewrite run_eq. cbv zeta. rewrite Hf. split; [reflexivity|].
  unfold at_delivery, after_loop, before_loop. cbn [trace heap].
  rewrite <- app_assoc, since_app, send_alerts_calls_app.
  destruct (loop_observed load_config (get_records event) (length (heap st)))
    as [-> _]. reflexivity.
Qed.

(** The Delivery Decision on an empty accumulator and a payload object:
    a debug trace when the object is valid, nothing otherwise. *)
Lemma delivery_of_empty_accumulator env r p st :
  heap st !! r = Some p ->
  alerts (self st) = [] ->
  send_alerts env (Some r) st =
  (inr tt,
   mkState (self st) (heap st)
     (trace st ++ Call (send_alerts_call env (Some r)) ::
      (if valid p then [Log DEBUG "Valid data, no alerts" []] else []))).
Proof.
  intros H Ha. rewrite (send_alerts_live env r p st H), Ha. reflexivity.
Qed.

Lemma skipped_batch_expected cfg records :
  Forall (fun record =>
            valid_source (map_source cfg (StreamPayload record)) = false)
         records ->
  expected_alerts cfg records = [].
Proof.
  unfold expected_alerts. rewrite concat_filter_truthy.
  induction 1 as [|record rest H _ IH]; [reflexivity|].
  simpl. unfold record_results at 1. rewrite H. exact IH.
Qed.

(** A batch whose records are all skipped for their source, given to a
    dispatcher without flag and without alerts: [run] returns normally, the
    accumulator stays empty, and the Delivery Decision reads the valid flag
    that the source mapping left on the payload of the last record. *)
Lemma all_skipped_batch_completes event context st rs x :
  get_records event = rs ++ [x] ->
  truthy_flag (return_alerts (self st)) = false ->
  alerts (self st) = [] ->
  Forall (fun record =>
            valid_source (map_source load_config (StreamPayload record)) = false)
         (rs ++ [x]) ->
  exists st' t0,
    run event context st = (inr None, st') /\
    alerts (self st') = [] /\
    since (length (trace st)) (trace st') =
      t0 ++
      Call (send_alerts_call (load_env context)
              (Some (length (heap st) + length rs))) ::
      (if valid (map_source load_config (StreamPayload x))
       then [Log DEBUG "Valid data, no alerts" []] else []).
Proof.
  intros E Hf Ha Hall.
  pose proof (run_delivers_trace event context st rs x E Hf) as Ht.
  destruct (run_accumulates event context st) as [Hacc _].
  rewrite E, (skipped_batch_expected _ _ Hall), Ha in Hacc. simpl in Hacc.
  rewrite Hacc in Ht.
  apply Forall_app in Hall as [_ Hx]. inversion Hx as [|? ? Hx' _]; subst.
  clear Hx. rename Hx' into Hx.
  destruct (skipped_record load_config (length (heap st) + length rs) x Hx)
    as [Hp _].
  rewrite Hp in Ht.
  exists (run event context st).2. eexists.
  split; [|split; [exact Hacc|]].
  - rewrite (run_delivers event context st rs x E Hf). reflexivity.
  - rewrite Ht, !app_assoc. reflexivity.
Qed.

(** C1.  An empty batch given to a dispatcher constructed without the
    return-alerts flag: [run] ends in the exception that reading the
    unbound local variable [payload] raises, whether the event has an empty
    list of records or no list at all. *)
Theorem empty_batch_raises_unbound_local context h t :
  (run {["Records" := []]} context (mkState (StreamAlert_init None) h t)).1 =
    inl (UnboundLocalError "payload") /\
  (run ∅ context (mkState (StreamAlert_init None) h t)).1 =
    inl (UnboundLocalError "payload").
Proof.
  split; rewrite run_eq; cbv zeta; unfold get_records.
  - rewrite lookup_singleton_eq. reflexivity.
  - rewrite lookup_empty. reflexivity.
Qed.

(** C7.  An empty batch given to a dispatcher constructed without the
    return-alerts flag: [run] does not return, and [send_alerts] is not
    invoked at all. *)
Theorem empty_batch_never_reaches_delivery context h t :
  (run {["Records" := []]} context (mkState (StreamAlert_init None) h t)).1 <>
    inr None /\
  send_alerts_calls
    (since (length t)
       (trace (run {["Records" := []]} context
                 (mkState (StreamAlert_init None) h t)).2)) = [].
Proof.
  rewrite run_eq. cbv zeta. unfold at_delivery, before_loop, get_records.
  rewrite lookup_singleton_eq. simpl. split; [discriminate|].
  unfold loop_trace. simpl. rewrite <- app_assoc, since_app. reflexivity.
Qed.

(** C9.  The Delivery Decision without a payload, on an empty accumulator:
    [send_alerts] called with [None] raises on reading the valid flag, and
    [run] on an empty batch raises before it calls [send_alerts], with
    nothing in its trace but its own prelude. *)
Theorem delivery_without_payload_raises env context return_alerts h t :
  send_alerts env None (mkState (StreamAlert_init return_alerts) h t) =
    (inl (AttributeError "valid"),
     mkState (StreamAlert_init return_alerts) h
             (t ++ [Call (send_alerts_call env None)])) /\
  run {["Records" := []]} context (mkState (StreamAlert_init None) h t) =
    (inl (UnboundLocalError "payload"),
     mkState (StreamAlert_init None) h
             (t ++ run_prelude {["Records" := []]} context)).
Proof.
  split; [apply send_alerts_absent; reflexivity|].
  rewrite run_eq. cbv zeta. unfold at_delivery, before_loop, after_loop,
    loop_alerts, loop_payloads, loop_trace, get_records.
  rewrite lookup_singleton_eq. simpl. rewrite !app_nil_r. reflexivity.
Qed.

End Run.

(** ** The theorems on the sample collaborators *)

Section OnSample.
Import Sample.
#[local] Existing Instance Sample.collaborators.

(** The three-line archive record in production: three alerts, in line
    order, and the sink receives the three. *)
Example archive_of_three_lines :
  alerts (self (run (batch [archive_record]) "production" (fresh None)).2) =
    ["alert: {evil 1}"; "alert: {evil 2}"; "alert: {evil 3}"] /\
  List.filter is_sink
    (trace (run (batch [archive_record]) "production" (fresh None)).2) =
    [Sink ["alert: {evil 1}"; "alert: {evil 2}"; "alert: {evil 3}"] "production"].
Proof. split; vm_compute; reflexivity. Qed.

(** One stream record of an unknown source: nothing accumulated, no
    pre-parser and no classification called, no delivery. *)
Example unknown_stream_record :
  (run (batch [unknown_record]) "production" (fresh None)).1 = inr None /\
  alerts (self (run (batch [unknown_record]) "production" (fresh None)).2) = [] /\
  trace (run (batch [unknown_record]) "production" (fresh None)).2 =
    [Log DEBUG "Number of Records: %d" [ArgNat 1]; LoadConfig;
     LoadEnv "production"; NewPayload unknown_record 0;
     NewClassifier load_config; MapSource 0 (StreamPayload unknown_record);
     Call (send_alerts_call "production" (Some 0))].
Proof. repeat split; vm_compute; reflexivity. Qed.

(** One notification that does not classify: nothing accumulated, one
    error log, no delivery. *)
Example invalid_notification_record :
  alerts (self (run (batch [invalid_notification]) "production" (fresh None)).2) = [] /\
  List.filter is_log
    (trace (run (batch [invalid_notification]) "production" (fresh None)).2) =
    [Log DEBUG "Number of Records: %d" [ArgNat 1];
     Log ERROR "Invalid data: %s\n%s"
       [ArgStr "payload of ops_topic"; ArgStr "junk"]] /\
  List.filter is_sink
    (trace (run (batch [invalid_notification]) "production" (fresh None)).2) = [].
Proof. repeat split; vm_compute; reflexivity. Qed.

(** An archive record whose second line does not classify, in development:
    the first line's alert, one error log for the second line, and the
    third line, valid again, evaluated without alert. *)
Example archive_with_invalid_line :
  alerts (self (run (batch [mixed_record]) "development" (fresh None)).2) =
    ["alert: {evil 1}"] /\
  List.filter is_error_log
    (trace (run (batch [mixed_record]) "development" (fresh None)).2) =
    [Log ERROR "Invalid data: %s\n%s"
       [ArgStr "payload of logs_bucket"; ArgStr "junk"]] /\
  length (rule_results
            (trace (run (batch [mixed_record]) "development" (fresh None)).2)) = 2 /\
  List.filter is_sink
    (trace (run (batch [mixed_record]) "development" (fresh None)).2) = [].
Proof. repeat split; vm_compute; reflexivity. Qed.

Example rstrip_keeps_inner_whitespace : rstrip " a b  " = " a b".
Proof. reflexivity. Qed.

Lemma invalid_data_logged_and_dropped_witness :
  heap (mapped invalid_notification) !! 0 =
    Some (map_source load_config (StreamPayload invalid_notification)) /\
  valid (classify_record load_config
           (map_source load_config (StreamPayload invalid_notification))
           "junk") = false /\
  exists st',
    process_alerts load_config 0 "junk" (mapped invalid_notification) =
      (inr tt, st') /\
    self st' = self (mapped invalid_notification) /\
    List.filter is_log (since 0 (trace st')) =
      [Log ERROR "Invalid data: %s\n%s"
         [ArgStr "payload of ops_topic"; ArgStr "junk"]] /\
    List.filter is_error_log (since 0 (trace st')) =
      List.filter is_log (since 0 (trace st')) /\
    List.filter is_rules_process (since 0 (trace st')) = [].
Proof.
  split; [reflexivity|]. split; [reflexivity|].
  exact (invalid_data_logged_and_dropped load_config 0 "junk"
           (mapped invalid_notification)
           (map_source load_config (StreamPayload invalid_notification))
           eq_refl eq_refl).
Defined.

Lemma delivery_of_accumulated_alerts_witness :
  alerts (self holding) <> [] /\
  (exists st',
     send_alerts "development" (Some 0) holding = (inr tt, st') /\
     self st' = self holding /\
     List.filter is_sink (since 0 (trace st')) = [] /\
     List.filter is_log (since 0 (trace st')) =
       [Log INFO "%s alerts triggered" [ArgNat 1];
        Log INFO "\n%s\n" [ArgStr "alert: {evil 1}"]]) /\
  (exists st',
     send_alerts "production" (Some 0) holding = (inr tt, st') /\
     self st' = self holding /\
     List.filter is_sink (since 0 (trace st')) =
       [Sink ["alert: {evil 1}"] "production"] /\
     List.filter is_log (since 0 (trace st')) = []).
Proof.
  assert (H : alerts (self holding) <> []) by discriminate.
  split; [exact H|]. split.
  - exact (delivery_of_accumulated_alerts "development" (Some 0) holding H).
  - exact (delivery_of_accumulated_alerts "production" (Some 0) holding H).
Defined.

Lemma unknown_source_skipped_witness :
  valid_source (map_source load_config (StreamPayload unknown_record)) = false /\
  exists st',
    run_record load_config unknown_record (fresh None) = (inr 0, st') /\
    self st' = self (fresh None) /\
    since 0 (trace st') =
      [NewPayload unknown_record 0; NewClassifier load_config;
       MapSource 0 (StreamPayload unknown_record)] /\
    List.filter is_pre_parse (since 0 (trace st')) = [] /\
    process_alerts_calls (since 0 (trace st')) = [].
Proof.
  split; [reflexivity|].
  exact (unknown_source_skipped load_config unknown_record (fresh None) eq_refl).
Defined.

Lemma archive_record_processed_per_line_witness :
  heap (mapped mixed_record) !! 0 =
    Some (map_source load_config (StreamPayload mixed_record)) /\
  classification_sets_valid load_config
    (map_source load_config (StreamPayload mixed_record)) (String.prefix "{") /\
  exists st',
    s3_process 0 load_config (mapped mixed_record) = (inr tt, st') /\
    process_alerts_calls (since 0 (trace st')) =
      [(0, "{evil 1}"); (0, "junk"); (0, "{fine}")] /\
    length (process_alerts_calls (since 0 (trace st'))) = 3 /\
    since 0 (trace st') =
      Call (s3_process_call 0) :: PreParseS3 mixed_record ::
      flat_map (line_trace load_config 0)
        (line_steps load_config
           (map_source load_config (StreamPayload mixed_record))
           ["{evil 1} "; "junk"; "{fine}"]) /\
    map snd (line_steps load_config
               (map_source load_config (StreamPayload mixed_record))
               ["{evil 1} "; "junk"; "{fine}"]) =
      ["{evil 1}"; "junk"; "{fine}"] /\
    length (heap st') = 1 /\
    unit_outcomes (since 0 (trace st')) = [true; false; true].
Proof.
  assert (Hc : classification_sets_valid load_config
                 (map_source load_config (StreamPayload mixed_record))
                 (String.prefix "{"))
    by (intros q data _; reflexivity).
  split; [reflexivity|]. split; [exact Hc|].
  destruct (archive_record_processed_per_line (C := collaborators)
              load_config 0 (mapped mixed_record)
              (map_source load_config
                 (StreamPayload (Collaborators := collaborators)
                    mixed_record)) eq_refl)
    as (st' & Hrun & Hcalls & Hlen & Htrace & Hdata & Hheap & Hfresh).
  exists st'. split; [exact Hrun|]. split; [exact Hcalls|].
  split; [exact Hlen|]. split; [exact Htrace|]. split; [exact Hdata|].
  split; [exact Hheap|].
  exact (Hfresh (String.prefix "{") Hc).
Defined.

(** Why the contract of classification is needed.  On the collaborators
    whose classifier keeps the flag, the handler takes the same steps, but
    the line that does not classify, coming after a valid one, is given to
    the rule engine: no error is logged for it. *)
Example kept_flag_reaches_rule_engine :
  unit_outcomes (C := Sticky.collaborators) (trace Sticky.mixed_archive.2) =
    [true; true; true] /\
  unit_outcomes (trace (s3_process 0 load_config (mapped mixed_record)).2) =
    [true; false; true].
Proof. split; vm_compute; reflexivity. Qed.

Lemma delivery_receives_last_payload_witness :
  get_records (batch [archive_record; unknown_record]) =
    [archive_record] ++ [unknown_record] /\
  truthy_flag (return_alerts (self (fresh None))) = false /\
  valid_source (map_source load_config (StreamPayload unknown_record)) = false /\
  exists st' t0 p,
    run (batch [archive_record; unknown_record]) "production" (fresh None) =
      (inr None, st') /\
    last (new_payloads (since 0 (trace st'))) = Some (unknown_record, 1) /\
    send_alerts_calls (since 0 (trace st')) = [("production", Some 1)] /\
    heap st' !! 1 = Some p /\
    since 0 (trace st') =
      t0 ++ Call (send_alerts_call "production" (Some 1)) ::
      delivery_steps "production" (alerts (self st')) (valid p) /\
    p = map_source load_config (StreamPayload unknown_record) /\
    ~ In 1 (classified (since 0 (trace st'))).
Proof.
  assert (E : get_records (batch [archive_record; unknown_record]) =
              [archive_record] ++ [unknown_record]) by (vm_compute; reflexivity).
  split; [exact E|]. split; [reflexivity|]. split; [reflexivity|].
  destruct (delivery_receives_last_payload (C := collaborators)
              (batch [archive_record; unknown_record]) "production"
              (fresh None) [archive_record] unknown_record E eq_refl)
    as (st' & t0 & p & Hrun & Hnew & Hcall & Hheap & Htrace & Hskip).
  destruct (Hskip eq_refl) as [Hp Hnot].
  exists st', t0, p. repeat split; assumption.
Defined.

(** C6, refuted as stated.  A dispatcher constructed with the return-alerts
    flag has run on a batch of one archive record; its second [run], on an
    empty batch, starts with the three alerts of the first in the
    accumulator and returns them, although its own batch yields none. *)
Lemma accumulator_kept_between_runs :
  alerts (self (run (batch [archive_record]) "production"
                  (fresh (Some true))).2) =
    ["alert: {evil 1}"; "alert: {evil 2}"; "alert: {evil 3}"] /\
  (run (batch []) "production"
     (run (batch [archive_record]) "production" (fresh (Some true))).2).1 =
    inr (Some ["alert: {evil 1}"; "alert: {evil 2}"; "alert: {evil 3}"]) /\
  expected_alerts load_config (get_records (batch [])) = [].
Proof. repeat split; vm_compute; reflexivity. Qed.

End OnSample.

(** ** The shape of the trace of an invocation *)

Section Shape.
Context `{C : Collaborators}.

Lemma filter_none {A} (f : A -> bool) (l : list A) :
  Forall (fun a => f a = false) l -> List.filter f l = [].
Proof.
  induction 1 as [|a l Ha _ IH]; [reflexivity|].
  simpl. rewrite Ha. exact IH.
Qed.

Lemma omap_none {A B} (f : A -> option B) (l : list A) :
  Forall (fun a => f a = None) l -> omap f l = [].
Proof.
  induction 1 as [|a l Ha _ IH]; [reflexivity|].
  simpl. rewrite Ha. exact IH.
Qed.

Lemma process_alerts_steps cfg r p data :
  Forall (fun a => is_pipeline_step a = true)
         (e_trace (process_alerts_eff cfg r p data)).
Proof.
  unfold process_alerts_eff. simpl.
  destruct (valid (classify_record cfg p data)); repeat constructor.
Qed.

Lemma s3_lines_steps cfg r lines : forall p,
  Forall (fun a => is_pipeline_step a = true)
         (e_trace (s3_lines_eff cfg r p lines)).
Proof.
  induction lines as [|line rest IH]; intros p; [constructor|].
  cbn [s3_lines_eff e_trace]. constructor; [reflexivity|].
  apply Forall_app. split; [apply process_alerts_steps | apply IH].
Qed.

Lemma pipeline_is_dispatch a :
  is_pipeline_step a = true -> is_dispatch_step a = true.
Proof. destruct a as [[] | | | | | | | | | | | | |[]]; simpl; congruence. Qed.

Lemma dispatch_is_loop a :
  is_dispatch_step a = true -> is_loop_step a = true.
Proof. destruct a; simpl; congruence. Qed.

Lemma dispatch_steps cfg r p :
  Forall (fun a => is_dispatch_step a = true) (e_trace (dispatch_eff cfg r p)).
Proof.
  assert (Hp : forall t, Forall (fun a => is_pipeline_step a = true) t ->
                         Forall (fun a => is_dispatch_step a = true) t).
  { intros t H. eapply Forall_impl; [exact H|]. exact pipeline_is_dispatch. }
  unfold dispatch_eff.
  destruct (negb (valid_source p)); [constructor|].
  destruct (String.eqb (service p) "s3").
  { unfold s3_process_eff. cbn [e_trace].
    do 2 (constructor; [reflexivity|]). apply Hp, s3_lines_steps. }
  destruct (String.eqb (service p) "kinesis").
  { unfold kinesis_process_eff. cbn [e_trace].
    do 2 (constructor; [reflexivity|]). apply Hp, process_alerts_steps. }
  destruct (String.eqb (service p) "sns").
  { unfold sns_process_eff. cbn [e_trace].
    do 2 (constructor; [reflexivity|]). apply Hp, process_alerts_steps. }
  repeat constructor.
Qed.

Lemma run_record_steps cfg r record :
  Forall (fun a => is_loop_step a = true) (e_trace (run_record_eff cfg r record)).
Proof.
  unfold run_record_eff. cbn [e_trace].
  do 3 (constructor; [reflexivity|]).
  eapply Forall_impl; [apply dispatch_steps|]. exact dispatch_is_loop.
Qed.

Lemma loop_trace_cons cfg base record rest :
  loop_trace cfg base (record :: rest) =
  e_trace (run_record_eff cfg base record) ++ loop_trace cfg (S base) rest.
Proof.
  unfold loop_trace. cbn [run_loop_eff].
  destruct (run_loop_eff cfg (S base) rest) as [[ps als] tr]. reflexivity.
Qed.

Lemma loop_steps cfg records : forall base,
  Forall (fun a => is_loop_step a = true) (loop_trace cfg base records).
Proof.
  induction records as [|record rest IH]; intros base; [constructor|].
  rewrite loop_trace_cons. apply Forall_app.
  split; [apply run_record_steps | apply IH].
Qed.

Lemma loop_payloads_last cfg base rs x :
  last (loop_payloads cfg base (rs ++ [x])) =
  Some (e_payload (run_record_eff cfg (base + length rs) x)).
Proof.
  unfold loop_payloads. rewrite run_loop_eff_app.
  destruct (run_loop_eff cfg base rs) as [[ps als] tr]. simpl.
  apply last_snoc.
Qed.

(** The state [run] ends in: that at the end of the loop, with the steps
    of the delivery added to the trace. *)
Lemma run_state event context st :
  (run event context st).2 =
  mkState (mkStreamAlert (return_alerts (self st))
             (alerts (self st) ++
              loop_alerts load_config (length (heap st)) (get_records event)))
          (heap st ++
           loop_payloads load_config (length (heap st)) (get_records event))
          (trace st ++ run_prelude event context ++
           loop_trace load_config (length (heap st)) (get_records event) ++
           run_delivery event context st).
Proof.
  unfold run_delivery.
  destruct (truthy_flag (return_alerts (self st))) eqn:Hf.
  - rewrite run_eq. cbv zeta. rewrite Hf. cbn [snd].
    unfold at_delivery, after_loop, before_loop. cbn [self heap trace].
    rewrite app_nil_r, <- app_assoc. reflexivity.
  - destruct (get_records event) as [|y l] eqn:E.
    + rewrite run_eq. cbv zeta. rewrite Hf, E. cbn [snd last_ref].
      unfold at_delivery, after_loop, before_loop. cbn [self heap trace].
      rewrite E. unfold loop_payloads at 3. simpl last.
      rewrite app_nil_r, <- app_assoc. reflexivity.
    + destruct (exists_last (l := y :: l)) as [rs [x E']]; [discriminate|].
      rewrite E' in *. clear E' y l.
      rewrite (run_delivers event context st rs x E Hf). cbn [snd].
      unfold at_delivery, after_loop, before_loop. cbn [self heap trace].
      rewrite E, loop_payloads_last, length_app. simpl length.
      replace (length (heap st) + (length rs + 1) - 1)
        with (length (heap st) + length rs) by lia.
      rewrite <- !app_assoc. reflexivity.
Qed.

(** What an invocation of [run] adds to the trace. *)
Lemma run_trace event context st :
  since (length (trace st)) (trace (run event context st).2) =
  run_prelude event context ++
  loop_trace load_config (length (heap st)) (get_records event) ++
  run_delivery event context st.
Proof. rewrite run_state. cbn [trace]. apply since_app. Qed.

Lemma records_alerts cfg records base :
  loop_alerts cfg base records = expected_alerts cfg records.
Proof.
  unfold expected_alerts. rewrite concat_filter_truthy.
  apply loop_results.
Qed.

End Shape.

(** ** Further properties of the extractors and of the Alert Pipeline *)

Section Units.
Context `{C : Collaborators}.

(** X1.  A stream record is one data unit: [kinesis_process] calls the
    kinesis pre-parser once, on the raw record of the payload, and invokes
    [process_alerts] once, on the same payload object and on the data as
    the pre-parser returned it; the object is not refreshed, so it is
    classified from the content the source mapping left, and the alerts of
    that one unit are added to the accumulator. *)
Theorem stream_record_is_one_unit cfg r st p :
  heap st !! r = Some p ->
  exists st',
    kinesis_process r cfg st = (inr tt, st') /\
    List.filter is_pre_parse (since (length (trace st)) (trace st')) =
      [PreParseKinesis (raw_record p)] /\
    process_alerts_calls (since (length (trace st)) (trace st')) =
      [(r, pre_parse_kinesis (raw_record p))] /\
    List.filter is_refresh (since (length (trace st)) (trace st')) = [] /\
    heap st' =
      <[r := classify_record cfg p (pre_parse_kinesis (raw_record p))]> (heap st) /\
    alerts (self st') =
      alerts (self st) ++
      concat (unit_results cfg p (pre_parse_kinesis (raw_record p))).
Proof.
  intros H. eexists. split; [apply kinesis_process_eq, H|].
  unfold after, kinesis_process_eff, process_alerts_eff, unit_results.
  cbn [self heap trace alerts e_payload e_alerts e_trace]. rewrite since_app.
  destruct (valid (classify_record cfg p (pre_parse_kinesis (raw_record p))));
    simpl; rewrite ?app_nil_r; repeat split.
Qed.

(** X2.  A notification is one data unit: [sns_process] calls the sns
    pre-parser once, on the raw record of the payload, and invokes
    [process_alerts] once, on the same payload object and on the data as
    the pre-parser returned it, without refreshing the object. *)
Theorem notification_is_one_unit cfg r st p :
  heap st !! r = Some p ->
  exists st',
    sns_process r cfg st = (inr tt, st') /\
    List.filter is_pre_parse (since (length (trace st)) (trace st')) =
      [PreParseSns (raw_record p)] /\
    process_alerts_calls (since (length (trace st)) (trace st')) =
      [(r, pre_parse_sns (raw_record p))] /\
    List.filter is_refresh (since (length (trace st)) (trace st')) = [] /\
    heap st' =
      <[r := classify_record cfg p (pre_parse_sns (raw_record p))]> (heap st) /\
    alerts (self st') =
      alerts (self st) ++
      concat (unit_results cfg p (pre_parse_sns (raw_record p))).
Proof.
  intros H. eexists. split; [apply sns_process_eq, H|].
  unfold after, sns_process_eff, process_alerts_eff, unit_results.
  cbn [self heap trace alerts e_payload e_alerts e_trace]. rewrite since_app.
  destruct (valid (classify_record cfg p (pre_parse_sns (raw_record p))));
    simpl; rewrite ?app_nil_r; repeat split.
Qed.

(** X3.  A record of a configured source whose service is none of s3,
    kinesis and sns: the loop body logs one message, at info level, with
    the service, and goes on; no pre-parser is called, the Alert Pipeline
    is not invoked, the dispatcher is unchanged and the payload stays as
    the source mapping left it. *)
Theorem unsupported_service_logged cfg record st :
  valid_source (map_source cfg (StreamPayload record)) = true ->
  service (map_source cfg (StreamPayload record)) <> "s3" ->
  service (map_source cfg (StreamPayload record)) <> "kinesis" ->
  service (map_source cfg (StreamPayload record)) <> "sns" ->
  exists st',
    run_record cfg record st = (inr (length (heap st)), st') /\
    self st' = self st /\
    heap st' = heap st ++ [map_source cfg (StreamPayload record)] /\
    since (length (trace st)) (trace st') =
      [NewPayload record (length (heap st)); NewClassifier cfg;
       MapSource (length (heap st)) (StreamPayload record);
       Log INFO "Unsupported service: %s"
         [ArgStr (service (map_source cfg (StreamPayload record)))]].
Proof.
  intros Hv H1 H2 H3. eexists. split; [apply run_record_eq|].
  apply String.eqb_neq in H1, H2, H3.
  unfold after_record, run_record_eff, dispatch_eff.
  rewrite Hv, H1, H2, H3. simpl. rewrite since_app, app_nil_r.
  destruct st as [[ra al] h tr]. repeat split.
Qed.

(** X4.  A data unit that classification marks valid: [process_alerts]
    calls the rule engine once, on the payload as classification left it,
    adds the alerts it returns to the end of the accumulator, in the
    order returned, and logs nothing; the return-alerts flag is
    untouched. *)
Theorem valid_data_evaluated cfg r data st p :
  heap st !! r = Some p ->
  valid (classify_record cfg p data) = true ->
  exists st',
    process_alerts cfg r data st = (inr tt, st') /\
    alerts (self st') =
      alerts (self st) ++ StreamRules_process (classify_record cfg p data) /\
    return_alerts (self st') = return_alerts (self st) /\
    List.filter is_rules_process (since (length (trace st)) (trace st')) =
      [RulesProcess r (classify_record cfg p data)] /\
    List.filter is_log (since (length (trace st)) (trace st')) = [] /\
    heap st' !! r = Some (classify_record cfg p data).
Proof.
  intros H Hv. eexists. split; [apply process_alerts_eq, H|].
  split; [|split; [reflexivity|]].
  - unfold after, process_alerts_eff. simpl. rewrite Hv. reflexivity.
  - rewrite (after_heap_lookup r _ st p H).
    unfold after, process_alerts_eff. cbn [trace e_trace e_payload].
    rewrite since_app, Hv. repeat split.
Qed.

(** X5.  An archive record whose object has no line: [s3_process] calls
    the pre-parser and nothing else; the Alert Pipeline is not invoked and
    the dispatcher and the payload are as they were. *)
Theorem archive_without_lines cfg r st p :
  heap st !! r = Some p ->
  pre_parse_s3 (raw_record p) = [] ->
  s3_process r cfg st =
  (inr tt,
   mkState (self st) (heap st)
     (trace st ++ [Call (s3_process_call r); PreParseS3 (raw_record p)])).
Proof.
  intros H Hl. rewrite (s3_process_eq cfg r st p H).
  unfold s3_process_eff. rewrite Hl. simpl.
  rewrite (after_trace_only r p _ st H). reflexivity.
Qed.

Lemma rstrip_idempotent s : rstrip (rstrip s) = rstrip s.
Proof.
  induction s as [|c s IH]; [reflexivity|].
  simpl. destruct (rstrip s) as [|d r] eqn:E.
  - destruct (is_whitespace c) eqn:Hc; [reflexivity|].
    simpl. rewrite Hc. reflexivity.
  - change (rstrip (String c (String d r))) with
      (match rstrip (String d r) with
       | EmptyString =>
           if is_whitespace c then EmptyString else String c EmptyString
       | String a b => String c (String a b)
       end).
    rewrite IH. reflexivity.
Qed.

Lemma append_cons c s w :
  String.append (String c s) w = String c (String.append s w).
Proof. reflexivity. Qed.

Lemma rstrip_split s :
  exists w, s = String.append (rstrip s) w /\ all_whitespace w = true.
Proof.
  induction s as [|c s (w & Hs & Hw)]; [exists EmptyString; split; reflexivity|].
  simpl. destruct (rstrip s) as [|d r] eqn:E.
  - change (s = w) in Hs. subst w. destruct (is_whitespace c) eqn:Hc.
    + exists (String c s). simpl. rewrite Hc, Hw. split; reflexivity.
    + exists s. split; [reflexivity | exact Hw].
  - exists w. split; [|exact Hw]. rewrite append_cons, <- Hs. reflexivity.
Qed.

Lemma s3_process_calls cfg r st p :
  heap st !! r = Some p ->
  process_alerts_calls
    (since (length (trace st)) (trace (s3_process r cfg st).2)) =
  map (fun line => (r, rstrip line)) (pre_parse_s3 (raw_record p)).
Proof.
  intros H. rewrite (s3_process_eq cfg r st p H).
  unfold after, s3_process_eff. cbn [snd trace e_trace].
  rewrite since_app, s3_lines_trace.
  change (process_alerts_calls
            (flat_map (line_trace cfg r)
               (line_steps cfg p (pre_parse_s3 (raw_record p)))) =
          map (fun line => (r, rstrip line)) (pre_parse_s3 (raw_record p))).
  rewrite line_trace_calls.
  rewrite <- (map_map rstrip (fun d => (r, d))).
  rewrite <- (line_steps_data cfg _ p), map_map. reflexivity.
Qed.

(** X6.  The data that [s3_process] gives to the Alert Pipeline, line by
    line: each is its line without a suffix of whitespace, has no
    whitespace left at its end (stripping it again changes nothing), and
    goes with the payload object the method received.  A line of
    whitespace only, or an empty line, is not skipped: its data is the
    empty string. *)
Theorem archive_data_right_stripped cfg r st p :
  heap st !! r = Some p ->
  Forall2
    (fun line call =>
       fst call = r /\
       rstrip (snd call) = snd call /\
       (exists w, line = String.append (snd call) w /\ all_whitespace w = true) /\
       (all_whitespace line = true -> snd call = EmptyString))
    (pre_parse_s3 (raw_record p))
    (process_alerts_calls
       (since (length (trace st)) (trace (s3_process r cfg st).2))).
Proof.
  intros H. rewrite (s3_process_calls cfg r st p H).
  induction (pre_parse_s3 (raw_record p)) as [|line rest IH]; [constructor|].
  simpl. constructor; [|exact IH]. simpl.
  split; [reflexivity|]. split; [apply rstrip_idempotent|].
  split; [apply rstrip_split|].
  clear. induction line as [|c s IHs]; [reflexivity|].
  simpl. intros Hw. apply andb_prop in Hw as [Hc Hs].
  rewrite (IHs Hs), Hc. reflexivity.
Qed.

(** X7.  The Delivery Decision changes neither the dispatcher nor a
    payload, whatever it is given and however it ends: the alerts it has
    logged or handed to the sink are still in the accumulator
    afterwards. *)
Theorem delivery_keeps_accumulator env payload st :
  self (send_alerts env payload st).2 = self st /\
  heap (send_alerts env payload st).2 = heap st.
Proof.
  destruct st as [[ra al] h tr].
  unfold send_alerts, read_valid, bind, emit, get_self, log, deref, ret, raise.
  simpl. destruct al as [|a al]; simpl.
  - destruct payload as [r|]; simpl; [|split; reflexivity].
    destruct (h !! r) as [p|]; simpl; [|split; reflexivity].
    destruct (valid p); split; reflexivity.
  - destruct (String.eqb (lambda_alias env) "development"); split; reflexivity.
Qed.

(** X8.  The Delivery Decision on an empty accumulator and a payload
    object: it returns normally, calls no sink, and its only log is the
    debug trace, present when the payload is valid and absent when it is
    not. *)
Theorem delivery_on_empty_accumulator env r p st :
  heap st !! r = Some p ->
  alerts (self st) = [] ->
  exists st',
    send_alerts env (Some r) st = (inr tt, st') /\
    List.filter is_sink (since (length (trace st)) (trace st')) = [] /\
    List.filter is_log (since (length (trace st)) (trace st')) =
      (if valid p then [Log DEBUG "Valid data, no alerts" []] else []).
Proof.
  intros H Ha. eexists. split; [apply send_alerts_live, H|].
  cbn [trace]. rewrite since_app, Ha. unfold delivery_steps. simpl.
  destruct (valid p); split; reflexivity.
Qed.

(** X9.  One iteration of the loop of [run] calls at most one pre-parser:
    none for a record whose source is not configured or whose service has
    no extractor, and otherwise the one of the payload's service, on the
    raw record of the payload as the source mapping left it. *)
Theorem one_extraction_per_record cfg record st :
  List.filter is_pre_parse
    (since (length (trace st)) (trace (run_record cfg record st).2)) =
  expected_pre_parse cfg record.
Proof.
  assert (Hp : forall t, Forall (fun a => is_pipeline_step a = true) t ->
                         List.filter is_pre_parse t = []).
  { intros t Ht. apply filter_none. eapply Forall_impl; [exact Ht|].
    intros a. destruct a as [[] | | | | | | | | | | | | |[]]; simpl; congruence. }
  rewrite run_record_eq. unfold after_record. cbn [snd trace].
  rewrite since_app. unfold run_record_eff, expected_pre_parse, dispatch_eff.
  cbn [e_trace List.filter is_pre_parse].
  set (p := map_source cfg (StreamPayload record)).
  destruct (negb (valid_source p)); [reflexivity|].
  destruct (String.eqb (service p) "s3").
  { unfold s3_process_eff. cbn [e_trace List.filter is_pre_parse].
    rewrite (Hp _ (s3_lines_steps cfg _ _ p)). reflexivity. }
  destruct (String.eqb (service p) "kinesis").
  { unfold kinesis_process_eff. cbn [e_trace List.filter is_pre_parse].
    rewrite (Hp _ (process_alerts_steps cfg _ p _)). reflexivity. }
  destruct (String.eqb (service p) "sns").
  { unfold sns_process_eff. cbn [e_trace List.filter is_pre_parse].
    rewrite (Hp _ (process_alerts_steps cfg _ p _)). reflexivity. }
  reflexivity.
Qed.

End Units.

(** ** Further properties of a whole invocation *)

Section Whole.
Context `{C : Collaborators}.

Lemma filter_app_list {A} (f : A -> bool) (l l' : list A) :
  List.filter f (l ++ l') = List.filter f l ++ List.filter f l'.
Proof. apply List.filter_app. Qed.

Lemma get_records_singleton (records : list Raw) :
  get_records {["Records" := records]} = records.
Proof. unfold get_records. rewrite lookup_singleton_eq. reflexivity. Qed.

Lemma expected_alerts_app cfg rs1 rs2 :
  expected_alerts cfg (rs1 ++ rs2) =
  expected_alerts cfg rs1 ++ expected_alerts cfg rs2.
Proof.
  unfold expected_alerts.
  rewrite !concat_filter_truthy, flat_map_app, concat_app. reflexivity.
Qed.

(** With the flag, the value [run] returns. *)
Lemma run_flag_result event context st :
  truthy_flag (return_alerts (self st)) = true ->
  (run event context st).1 =
  inr (Some (alerts (self st) ++ expected_alerts load_config (get_records event))).
Proof.
  intros Hf. rewrite run_eq. cbv zeta. rewrite Hf. cbn [fst].
  unfold at_delivery, after_loop, before_loop. cbn [self heap alerts].
  rewrite records_alerts. reflexivity.
Qed.

Lemma run_delivery_empty event context st :
  get_records event = [] -> run_delivery event context st = [].
Proof.
  intros E. unfold run_delivery. rewrite E.
  destruct (truthy_flag (return_alerts (self st))); reflexivity.
Qed.

Lemma run_delivery_flag event context st :
  truthy_flag (return_alerts (self st)) = true ->
  run_delivery event context st = [].
Proof. intros Hf. unfold run_delivery. rewrite Hf. reflexivity. Qed.

(** Without the flag and with a last record, the delivery part. *)
Lemma run_delivery_last event context st rs x :
  get_records event = rs ++ [x] ->
  truthy_flag (return_alerts (self st)) = false ->
  run_delivery event context st =
  Call (send_alerts_call (load_env context)
          (Some (length (heap st) + length rs))) ::
  delivery_steps (load_env context)
    (alerts (self st) ++ expected_alerts load_config (rs ++ [x]))
    (valid (e_payload (run_record_eff load_config
                         (length (heap st) + length rs) x))).
Proof.
  intros E Hf. unfold run_delivery.
  rewrite Hf, E, loop_payloads_last, records_alerts, length_app. simpl length.
  replace (length (heap st) + (length rs + 1) - 1)
    with (length (heap st) + length rs) by lia.
  reflexivity.
Qed.

(** The batch is empty or has a last record. *)
Lemma records_cases (records : list Raw) :
  records = [] \/ exists rs x, records = rs ++ [x].
Proof.
  destruct records as [|y l]; [left; reflexivity|]. right.
  destruct (exists_last (l := y :: l)) as [rs [x E]]; [discriminate|].
  exists rs, x. exact E.
Qed.

(** X10.  [run] raises in one case only: the batch is empty (or the event
    has no list of records) and the dispatcher has no return-alerts flag;
    the exception is then that of the unbound local variable [payload].
    In every other case it returns. *)
Theorem run_raises_only_on_empty_batch event context st :
  ((run event context st).1 = inl (UnboundLocalError "payload") <->
   get_records event = [] /\ truthy_flag (return_alerts (self st)) = false) /\
  (forall e, (run event context st).1 = inl e ->
             e = UnboundLocalError "payload").
Proof.
  destruct (truthy_flag (return_alerts (self st))) eqn:Hf.
  - rewrite (run_flag_result event context st Hf).
    split; [split|]; [discriminate | intros [_ H]; discriminate | discriminate].
  - destruct (records_cases (get_records event)) as [E | (rs & x & E)].
    + rewrite run_eq. cbv zeta. rewrite Hf, E. cbn [last_ref fst].
      split; [split; [split; reflexivity | reflexivity]|].
      intros e He. congruence.
    + rewrite (run_delivers event context st rs x E Hf). cbn [fst].
      split; [split|]; [discriminate | | discriminate].
      intros [H _]. rewrite E in H. destruct rs; discriminate.
Qed.

Lemma delivery_steps_sink env accumulated v :
  List.filter is_sink (delivery_steps env accumulated v) =
  if truthy_list accumulated &&
     negb (String.eqb (lambda_alias env) "development")
  then [Sink accumulated env] else [].
Proof.
  unfold delivery_steps.
  destruct (truthy_list accumulated),
    (String.eqb (lambda_alias env) "development"), v; reflexivity.
Qed.

Lemma loop_no_sink cfg records base :
  List.filter is_sink (loop_trace cfg base records) = [].
Proof.
  apply filter_none. eapply Forall_impl; [apply loop_steps|].
  intros a. destruct a as [[] | | | | | | | | | | | | |[]]; simpl; congruence.
Qed.

(** X11.  The sink calls of one invocation of [run].  There is at most
    one, made after the loop, with the whole accumulator and the
    environment; it is made when, and only when, the dispatcher has no
    return-alerts flag, the batch has a record, the accumulator is not
    empty and the stage is not development. *)
Theorem sink_calls_of_run event context st :
  List.filter is_sink
    (since (length (trace st)) (trace (run event context st).2)) =
  expected_sink_calls event context (return_alerts (self st)) (alerts (self st)).
Proof.
  rewrite run_trace, !filter_app_list, loop_no_sink.
  unfold expected_sink_calls. simpl.
  destruct (truthy_flag (return_alerts (self st))) eqn:Hf.
  { rewrite (run_delivery_flag event context st Hf). reflexivity. }
  destruct (records_cases (get_records event)) as [E | (rs & x & E)].
  - rewrite (run_delivery_empty event context st E), E. reflexivity.
  - rewrite (run_delivery_last event context st rs x E Hf), E.
    cbn [List.filter is_sink]. rewrite delivery_steps_sink.
    assert (Ht : truthy_list (rs ++ [x]) = true) by (destruct rs; reflexivity).
    rewrite Ht. reflexivity.
Qed.

Lemma loop_new_payloads cfg records : forall base,
  new_payloads (loop_trace cfg base records) =
  zip records (seq base (length records)).
Proof.
  induction records as [|record rest IH]; intros base; [reflexivity|].
  rewrite loop_trace_cons, new_payloads_app, IH.
  destruct (run_record_observed cfg base record) as (-> & _ & _).
  reflexivity.
Qed.

Lemma run_delivery_observed event context st :
  new_payloads (run_delivery event context st) = [] /\
  new_classifiers (run_delivery event context st) = [] /\
  List.filter is_load (run_delivery event context st) = [] /\
  balanced (run_delivery event context st).
Proof.
  unfold run_delivery, balanced.
  destruct (truthy_flag (return_alerts (self st))); [repeat split|].
  destruct (last (loop_payloads load_config (length (heap st))
                    (get_records event))) as [p|]; [|repeat split].
  unfold delivery_steps.
  destruct (truthy_list
              (alerts (self st) ++
               loop_alerts load_config (length (heap st)) (get_records event))),
    (String.eqb (lambda_alias (load_env context)) "development"), (valid p);
    repeat split.
Qed.

(** X12.  [run] builds one payload object per record of the batch, in
    the order of the batch and whether or not the record is skipped later;
    the objects that existed before are not touched. *)
Theorem one_payload_per_record event context st :
  new_payloads (since (length (trace st)) (trace (run event context st).2)) =
    zip (get_records event)
        (seq (length (heap st)) (length (get_records event))) /\
  length (heap (run event context st).2) =
    length (heap st) + length (get_records event) /\
  take (length (heap st)) (heap (run event context st).2) = heap st.
Proof.
  destruct (run_delivery_observed event context st) as (Hn & _).
  rewrite run_trace, !new_payloads_app, loop_new_payloads, Hn, run_state.
  cbn [heap]. rewrite length_app, loop_payloads_length, take_app_length.
  simpl. rewrite app_nil_r. repeat split.
Qed.

Lemma loop_new_classifiers cfg records : forall base,
  new_classifiers (loop_trace cfg base records) =
  replicate (length records) cfg.
Proof.
  induction records as [|record rest IH]; intros base; [reflexivity|].
  rewrite loop_trace_cons. unfold new_classifiers at 1. rewrite omap_app.
  fold (new_classifiers (loop_trace cfg (S base) rest)). rewrite IH.
  unfold run_record_eff. cbn [e_trace omap]. simpl. f_equal.
  rewrite omap_none; [reflexivity|].
  eapply Forall_impl; [apply dispatch_steps|].
  intros a. destruct a as [[] | | | | | | | | | | | | |[]]; simpl; congruence.
Qed.

Lemma loop_no_load cfg records base :
  List.filter is_load (loop_trace cfg base records) = [].
Proof.
  apply filter_none. eapply Forall_impl; [apply loop_steps|].
  intros a. destruct a as [[] | | | | | | | | | | | | |[]]; simpl; congruence.
Qed.

(** X13.  [run] starts with a debug log of the number of records, then
    loads the configuration and the environment; it loads each once in the
    whole invocation, and it builds one classifier per record, each on
    that one configuration. *)
Theorem configuration_loaded_once event context st :
  take 3 (since (length (trace st)) (trace (run event context st).2)) =
    [Log DEBUG "Number of Records: %d" [ArgNat (length (get_records event))];
     LoadConfig; LoadEnv context] /\
  List.filter is_load
    (since (length (trace st)) (trace (run event context st).2)) =
    [LoadConfig; LoadEnv context] /\
  new_classifiers
    (since (length (trace st)) (trace (run event context st).2)) =
    replicate (length (get_records event)) load_config.
Proof.
  destruct (run_delivery_observed event context st) as (_ & Hc & Hl & _).
  rewrite run_trace. split; [reflexivity|]. split.
  - rewrite !filter_app_list, loop_no_load, Hl. reflexivity.
  - unfold new_classifiers at 1. rewrite !omap_app.
    fold (new_classifiers (run_delivery event context st)).
    fold (new_classifiers
            (loop_trace load_config (length (heap st)) (get_records event))).
    rewrite Hc, loop_new_classifiers, app_nil_r. reflexivity.
Qed.

(** X14.  Two invocations in a row on one dispatcher constructed with the
    return-alerts flag: the second returns the alerts of the first batch
    followed by those of its own, which is what a single invocation on
    the two batches put end to end returns. *)
Theorem successive_runs_accumulate (rs1 rs2 : list Raw) context1 context2 h t :
  (run {["Records" := rs2]} context2
     (run {["Records" := rs1]} context1
        (mkState (StreamAlert_init (Some true)) h t)).2).1 =
    inr (Some (expected_alerts load_config rs1 ++
               expected_alerts load_config rs2)) /\
  (run {["Records" := rs1 ++ rs2]} context1
     (mkState (StreamAlert_init (Some true)) h t)).1 =
    inr (Some (expected_alerts load_config rs1 ++
               expected_alerts load_config rs2)).
Proof.
  split.
  - rewrite run_flag_result.
    + rewrite run_state. cbn [self alerts StreamAlert_init app].
      rewrite records_alerts, !get_records_singleton. reflexivity.
    + rewrite run_state. reflexivity.
  - rewrite run_flag_result by reflexivity.
    rewrite get_records_singleton, expected_alerts_app. reflexivity.
Qed.

Lemma balanced_app t t' : balanced t -> balanced t' -> balanced (t ++ t').
Proof.
  unfold balanced. intros [H1 H2] [H1' H2'].
  rewrite process_alerts_calls_app, classified_app, rule_results_app,
    filter_app_list, !length_app. lia.
Qed.

Lemma process_alerts_balanced cfg r p data :
  balanced (e_trace (process_alerts_eff cfg r p data)).
Proof.
  unfold balanced, process_alerts_eff. simpl.
  destruct (valid (classify_record cfg p data)); split; reflexivity.
Qed.

Lemma s3_lines_balanced cfg r lines : forall p,
  balanced (e_trace (s3_lines_eff cfg r p lines)).
Proof.
  induction lines as [|line rest IH]; intros p; [split; reflexivity|].
  cbn [s3_lines_eff e_trace].
  apply (balanced_app [RefreshRecord r p (rstrip line)]); [split; reflexivity|].
  apply balanced_app; [apply process_alerts_balanced | apply IH].
Qed.

Lemma run_record_balanced cfg r record :
  balanced (e_trace (run_record_eff cfg r record)).
Proof.
  unfold run_record_eff, dispatch_eff. cbn [e_trace].
  set (p := map_source cfg (StreamPayload record)).
  apply (balanced_app [NewPayload record r; NewClassifier cfg;
                       MapSource r (StreamPayload record)]);
    [split; reflexivity|].
  destruct (negb (valid_source p)); [split; reflexivity|].
  destruct (String.eqb (service p) "s3").
  { apply (balanced_app [Call (s3_process_call r); PreParseS3 (raw_record p)]);
      [split; reflexivity | apply s3_lines_balanced]. }
  destruct (String.eqb (service p) "kinesis").
  { apply (balanced_app [Call (kinesis_process_call r);
                         PreParseKinesis (raw_record p)]);
      [split; reflexivity | apply process_alerts_balanced]. }
  destruct (String.eqb (service p) "sns").
  { apply (balanced_app [Call (sns_process_call r); PreParseSns (raw_record p)]);
      [split; reflexivity | apply process_alerts_balanced]. }
  split; reflexivity.
Qed.

Lemma loop_balanced cfg records : forall base,
  balanced (loop_trace cfg base records).
Proof.
  induction records as [|record rest IH]; intros base; [split; reflexivity|].
  rewrite loop_trace_cons.
  apply balanced_app; [apply run_record_balanced | apply IH].
Qed.

Lemma units_app cfg t t' : units cfg t -> units cfg t' -> units cfg (t ++ t').
Proof.
  induction 1 as [|r p data t Hv _ IH|r p data t Hv _ IH]; intros Ht';
    [exact Ht' | |].
  - apply (units_valid cfg r p data (t ++ t') Hv). exact (IH Ht').
  - apply (units_invalid cfg r p data (t ++ t') Hv). exact (IH Ht').
Qed.

Lemma units_filter_app cfg t t' :
  units cfg (List.filter is_unit_step t) ->
  units cfg (List.filter is_unit_step t') ->
  units cfg (List.filter is_unit_step (t ++ t')).
Proof. rewrite filter_app_list. apply units_app. Qed.

Lemma process_alerts_units cfg r p data :
  units cfg (List.filter is_unit_step (e_trace (process_alerts_eff cfg r p data))).
Proof.
  unfold process_alerts_eff. cbn [e_trace].
  destruct (valid (classify_record cfg p data)) eqn:Hv.
  - apply (units_valid cfg r p data [] Hv). constructor.
  - apply (units_invalid cfg r p data [] Hv). constructor.
Qed.

Lemma s3_lines_units cfg r lines : forall p,
  units cfg (List.filter is_unit_step (e_trace (s3_lines_eff cfg r p lines))).
Proof.
  induction lines as [|line rest IH]; intros p; [constructor|].
  cbn [s3_lines_eff e_trace].
  apply (units_filter_app cfg [RefreshRecord r p (rstrip line)]); [constructor|].
  apply units_filter_app; [apply process_alerts_units | apply IH].
Qed.

Lemma run_record_units cfg r record :
  units cfg (List.filter is_unit_step (e_trace (run_record_eff cfg r record))).
Proof.
  unfold run_record_eff, dispatch_eff. cbn [e_trace].
  set (p := map_source cfg (StreamPayload record)).
  apply (units_filter_app cfg [NewPayload record r; NewClassifier cfg;
                               MapSource r (StreamPayload record)]);
    [constructor|].
  destruct (negb (valid_source p)); [constructor|].
  destruct (String.eqb (service p) "s3").
  { apply (units_filter_app cfg [Call (s3_process_call r);
                                 PreParseS3 (raw_record p)]);
      [constructor | apply s3_lines_units]. }
  destruct (String.eqb (service p) "kinesis").
  { apply (units_filter_app cfg [Call (kinesis_process_call r);
                                 PreParseKinesis (raw_record p)]);
      [constructor | apply process_alerts_units]. }
  destruct (String.eqb (service p) "sns").
  { apply (units_filter_app cfg [Call (sns_process_call r);
                                 PreParseSns (raw_record p)]);
      [constructor | apply process_alerts_units]. }
  constructor.
Qed.

Lemma loop_units cfg records : forall base,
  units cfg (List.filter is_unit_step (loop_trace cfg base records)).
Proof.
  induction records as [|record rest IH]; intros base; [constructor|].
  rewrite loop_trace_cons.
  apply units_filter_app; [apply run_record_units | apply IH].
Qed.

Lemma run_delivery_no_unit event context st :
  List.filter is_unit_step (run_delivery event context st) = [].
Proof.
  unfold run_delivery.
  destruct (truthy_flag (return_alerts (self st))); [reflexivity|].
  destruct (last (loop_payloads load_config (length (heap st))
                    (get_records event))) as [p|]; [|reflexivity].
  unfold delivery_steps.
  destruct (truthy_list
              (alerts (self st) ++
               loop_alerts load_config (length (heap st)) (get_records event))),
    (String.eqb (lambda_alias (load_env context)) "development"), (valid p);
    reflexivity.
Qed.

(** X15.  Over a whole invocation of [run], the steps of the Alert
    Pipeline come in whole data units, one after the other: each
    invocation of [process_alerts] is followed by one classification, of
    the object and on the data it received, and that by exactly one of
    rule evaluation, when classification left the payload valid, and the
    error log of invalid data, when it did not.  Hence the
    classifications are as many as the invocations, and as many as the
    rule evaluations and the error logs together. *)
Theorem every_unit_evaluated_or_reported event context st :
  units load_config
    (List.filter is_unit_step
       (since (length (trace st)) (trace (run event context st).2))) /\
  length (process_alerts_calls
            (since (length (trace st)) (trace (run event context st).2))) =
  length (classified
            (since (length (trace st)) (trace (run event context st).2))) /\
  length (classified
            (since (length (trace st)) (trace (run event context st).2))) =
  length (rule_results
            (since (length (trace st)) (trace (run event context st).2))) +
  length (List.filter is_error_log
            (since (length (trace st)) (trace (run event context st).2))).
Proof.
  rewrite run_trace. split.
  - apply (units_filter_app load_config (run_prelude event context));
      [constructor|].
    apply units_filter_app; [apply loop_units|].
    rewrite run_delivery_no_unit. constructor.
  - apply (balanced_app (run_prelude event context)); [split; reflexivity|].
    apply balanced_app; [apply loop_balanced|].
    apply run_delivery_observed.
Qed.

(** X16.  With the return-alerts flag, [run] returns for every event,
    also one without records: the value is the accumulator, which is what
    the dispatcher held followed by the alerts of the batch; [send_alerts]
    is not invoked and no sink is called. *)
Theorem run_with_flag_returns_accumulator event context st :
  truthy_flag (return_alerts (self st)) = true ->
  (run event context st).1 =
    inr (Some (alerts (self st) ++
               expected_alerts load_config (get_records event))) /\
  alerts (self (run event context st).2) =
    alerts (self st) ++ expected_alerts load_config (get_records event) /\
  send_alerts_calls
    (since (length (trace st)) (trace (run event context st).2)) = [] /\
  List.filter is_sink
    (since (length (trace st)) (trace (run event context st).2)) = [].
Proof.
  intros Hf. split; [apply run_flag_result, Hf|].
  split; [apply run_accumulates|].
  rewrite run_trace, (run_delivery_flag event context st Hf), app_nil_r.
  rewrite send_alerts_calls_app, filter_app_list, loop_no_sink.
  destruct (loop_observed load_config (get_records event) (length (heap st)))
    as [-> _].
  split; reflexivity.
Qed.

Lemma skipped_loop_steps cfg records : forall base,
  Forall (fun record =>
            valid_source (map_source cfg (StreamPayload record)) = false)
         records ->
  Forall (fun a => is_mapping_step a = true) (loop_trace cfg base records).
Proof.
  induction records as [|record rest IH]; intros base Hall; [constructor|].
  inversion Hall as [|? ? Hr Hrest]; subst.
  rewrite loop_trace_cons. apply Forall_app. split; [|apply IH, Hrest].
  unfold run_record_eff, dispatch_eff. rewrite Hr. repeat constructor.
Qed.

(** X17.  A batch with at least one record, all of whose records are of
    sources the configuration does not know, given to a dispatcher without
    flag and without alerts: [run] returns normally with the accumulator
    still empty, and has called no pre-parser, no classification, no rule
    evaluation and no sink. *)
Theorem all_skipped_batch_is_quiet event context st :
  get_records event <> [] ->
  truthy_flag (return_alerts (self st)) = false ->
  alerts (self st) = [] ->
  Forall (fun record =>
            valid_source (map_source load_config (StreamPayload record)) = false)
         (get_records event) ->
  (run event context st).1 = inr None /\
  alerts (self (run event context st).2) = [] /\
  List.filter is_pre_parse
    (since (length (trace st)) (trace (run event context st).2)) = [] /\
  classified (since (length (trace st)) (trace (run event context st).2)) = [] /\
  rule_results (since (length (trace st)) (trace (run event context st).2)) = [] /\
  List.filter is_sink
    (since (length (trace st)) (trace (run event context st).2)) = [].
Proof.
  intros Hne Hf Ha Hall.
  destruct (records_cases (get_records event)) as [E | (rs & x & E)];
    [contradiction|].
  pose proof (skipped_loop_steps load_config (get_records event)
                (length (heap st)) Hall) as Hsteps.
  pose proof (skipped_batch_expected load_config (get_records event) Hall)
    as Hexp.
  split; [rewrite (run_delivers event context st rs x E Hf); reflexivity|].
  split.
  { destruct (run_accumulates event context st) as [-> _].
    rewrite Ha, Hexp. reflexivity. }
  rewrite run_trace, (run_delivery_last event context st rs x E Hf).
  rewrite <- E, Ha, Hexp. cbn [app].
  assert (Hd : delivery_steps (load_env context) []
                 (valid (e_payload (run_record_eff load_config
                                      (length (heap st) + length rs) x))) =
               (if valid (e_payload (run_record_eff load_config
                                       (length (heap st) + length rs) x))
                then [Log DEBUG "Valid data, no alerts" []] else []))
    by reflexivity.
  rewrite Hd. clear Hd.
  assert (Hq : forall f : Action -> bool,
            (forall a, is_mapping_step a = true -> f a = false) ->
            List.filter f (loop_trace load_config (length (heap st))
                             (get_records event)) = []).
  { intros f Hfa. apply filter_none.
    eapply Forall_impl; [exact Hsteps | exact Hfa]. }
  assert (Hc : classified (loop_trace load_config (length (heap st))
                             (get_records event)) = []).
  { apply omap_none. eapply Forall_impl; [exact Hsteps|].
    intros a; destruct a; simpl; congruence. }
  assert (Hr : rule_results (loop_trace load_config (length (heap st))
                               (get_records event)) = []).
  { apply omap_none. eapply Forall_impl; [exact Hsteps|].
    intros a; destruct a; simpl; congruence. }
  rewrite !filter_app_list, !classified_app, !rule_results_app, Hc, Hr.
  rewrite (Hq is_pre_parse), (Hq is_sink)
    by (intros a; destruct a; simpl; congruence).
  destruct (valid (e_payload (run_record_eff load_config
                                (length (heap st) + length rs) x)));
    repeat split.
Qed.

End Whole.

(** ** The further properties on the sample collaborators *)

Section MoreOnSample.
Import Sample.
#[local] Existing Instance Sample.collaborators.

(** A batch of the three kinds of record and one of an unsupported
    service, in production: alerts in record-then-line order, one sink
    call with all of them, one info log for the unsupported service. *)
Example batch_of_every_kind :
  alerts (self (run (batch [stream_record; archive_record; unsupported_record;
                            notification]) "production" (fresh None)).2) =
    ["alert: {evil 7} "; "alert: {evil 1}"; "alert: {evil 2}";
     "alert: {evil 3}"; "alert: {evil 8}"] /\
  List.filter is_log
    (trace (run (batch [stream_record; archive_record; unsupported_record;
                        notification]) "production" (fresh None)).2) =
    [Log DEBUG "Number of Records: %d" [ArgNat 4];
     Log INFO "Unsupported service: %s" [ArgStr "sqs"]] /\
  length (List.filter is_sink
    (trace (run (batch [stream_record; archive_record; unsupported_record;
                        notification]) "production" (fresh None)).2)) = 1.
Proof. repeat split; vm_compute; reflexivity. Qed.

Lemma stream_record_is_one_unit_witness :
  heap (mapped stream_record) !! 0 =
    Some (map_source load_config (StreamPayload stream_record)) /\
  exists st',
    kinesis_process 0 load_config (mapped stream_record) = (inr tt, st') /\
    List.filter is_pre_parse (since 0 (trace st')) =
      [PreParseKinesis stream_record] /\
    process_alerts_calls (since 0 (trace st')) = [(0, "{evil 7} ")] /\
    List.filter is_refresh (since 0 (trace st')) = [] /\
    heap st' =
      [mkPayload stream_record "kinesis" true true "{evil 7} "] /\
    alerts (self st') = ["alert: {evil 7} "].
Proof.
  split; [reflexivity|].
  exact (stream_record_is_one_unit load_config 0 (mapped stream_record)
           (map_source load_config (StreamPayload stream_record)) eq_refl).
Defined.

Lemma notification_is_one_unit_witness :
  heap (mapped notification) !! 0 =
    Some (map_source load_config (StreamPayload notification)) /\
  exists st',
    sns_process 0 load_config (mapped notification) = (inr tt, st') /\
    List.filter is_pre_parse (since 0 (trace st')) = [PreParseSns notification] /\
    process_alerts_calls (since 0 (trace st')) = [(0, "{evil 8}")] /\
    List.filter is_refresh (since 0 (trace st')) = [] /\
    heap st' = [mkPayload notification "sns" true true "{evil 8}"] /\
    alerts (self st') = ["alert: {evil 8}"].
Proof.
  split; [reflexivity|].
  exact (notification_is_one_unit load_config 0 (mapped notification)
           (map_source load_config (StreamPayload notification)) eq_refl).
Defined.

Lemma unsupported_service_logged_witness :
  valid_source (map_source load_config (StreamPayload unsupported_record)) = true /\
  service (map_source load_config (StreamPayload unsupported_record)) = "sqs" /\
  exists st',
    run_record load_config unsupported_record (fresh None) = (inr 0, st') /\
    self st' = self (fresh None) /\
    heap st' = [map_source load_config (StreamPayload unsupported_record)] /\
    since 0 (trace st') =
      [NewPayload unsupported_record 0; NewClassifier load_config;
       MapSource 0 (StreamPayload unsupported_record);
       Log INFO "Unsupported service: %s" [ArgStr "sqs"]].
Proof.
  split; [reflexivity|]. split; [reflexivity|].
  apply (unsupported_service_logged (C := collaborators) load_config
           unsupported_record (fresh None));
    [reflexivity | discriminate | discriminate | discriminate].
Defined.

Lemma valid_data_evaluated_witness :
  heap (mapped stream_record) !! 0 =
    Some (map_source load_config (StreamPayload stream_record)) /\
  valid (classify_record load_config
           (map_source load_config (StreamPayload stream_record))
           "{evil 7}") = true /\
  exists st',
    process_alerts load_config 0 "{evil 7}" (mapped stream_record) =
      (inr tt, st') /\
    alerts (self st') = ["alert: {evil 7}"] /\
    return_alerts (self st') = None /\
    List.filter is_rules_process (since 0 (trace st')) =
      [RulesProcess 0 (mkPayload stream_record "kinesis" true true "{evil 7}")] /\
    List.filter is_log (since 0 (trace st')) = [] /\
    heap st' !! 0 =
      Some (mkPayload stream_record "kinesis" true true "{evil 7}").
Proof.
  split; [reflexivity|]. split; [reflexivity|].
  exact (valid_data_evaluated load_config 0 "{evil 7}" (mapped stream_record)
           (map_source load_config (StreamPayload stream_record))
           eq_refl eq_refl).
Defined.

Lemma archive_without_lines_witness :
  heap (mapped empty_archive) !! 0 =
    Some (map_source load_config (StreamPayload empty_archive)) /\
  pre_parse_s3 (raw_record (map_source load_config (StreamPayload empty_archive))) = [] /\
  s3_process 0 load_config (mapped empty_archive) =
  (inr tt,
   mkState (StreamAlert_init None)
     [map_source load_config (StreamPayload empty_archive)]
     [Call (s3_process_call 0); PreParseS3 empty_archive]).
Proof.
  split; [reflexivity|]. split; [reflexivity|].
  exact (archive_without_lines load_config 0 (mapped empty_archive)
           (map_source load_config (StreamPayload empty_archive))
           eq_refl eq_refl).
Defined.

Lemma archive_data_right_stripped_witness :
  heap (mapped archive_record) !! 0 =
    Some (map_source load_config (StreamPayload archive_record)) /\
  Forall2
    (fun line call =>
       fst call = 0 /\
       rstrip (snd call) = snd call /\
       (exists w, line = String.append (snd call) w /\ all_whitespace w = true) /\
       (all_whitespace line = true -> snd call = EmptyString))
    ["{evil 1}  "; "{evil 2}"; "{evil 3} "]
    (process_alerts_calls
       (since 0 (trace (s3_process 0 load_config (mapped archive_record)).2))).
Proof.
  split; [reflexivity|].
  exact (archive_data_right_stripped load_config 0 (mapped archive_record)
           (map_source load_config (StreamPayload archive_record)) eq_refl).
Defined.

Lemma delivery_on_empty_accumulator_witness :
  heap idle !! 0 =
    Some (mkPayload invalid_notification "sns" true false "junk") /\
  alerts (self idle) = [] /\
  exists st',
    send_alerts "production" (Some 0) idle = (inr tt, st') /\
    List.filter is_sink (since 0 (trace st')) = [] /\
    List.filter is_log (since 0 (trace st')) = [].
Proof.
  split; [reflexivity|]. split; [reflexivity|].
  exact (delivery_on_empty_accumulator "production" 0
           (mkPayload invalid_notification "sns" true false "junk") idle
           eq_refl eq_refl).
Defined.

Lemma run_with_flag_returns_accumulator_witness :
  truthy_flag (return_alerts (self (fresh (Some true)))) = true /\
  (run (batch [archive_record]) "production" (fresh (Some true))).1 =
    inr (Some ["alert: {evil 1}"; "alert: {evil 2}"; "alert: {evil 3}"]) /\
  alerts (self (run (batch [archive_record]) "production"
                  (fresh (Some true))).2) =
    ["alert: {evil 1}"; "alert: {evil 2}"; "alert: {evil 3}"] /\
  send_alerts_calls
    (since 0 (trace (run (batch [archive_record]) "production"
                       (fresh (Some true))).2)) = [] /\
  List.filter is_sink
    (since 0 (trace (run (batch [archive_record]) "production"
                       (fresh (Some true))).2)) = [].
Proof.
  split; [reflexivity|].
  destruct (run_with_flag_returns_accumulator (C := collaborators)
              (batch [archive_record]) "production" (fresh (Some true)) eq_refl)
    as (H1 & H2 & H3 & H4).
  split; [rewrite H1; vm_compute; reflexivity|].
  split; [rewrite H2; vm_compute; reflexivity|].
  split; [exact H3 | exact H4].
Defined.

Lemma all_skipped_batch_is_quiet_witness :
  get_records (batch [unknown_record; unknown_record]) <> [] /\
  truthy_flag (return_alerts (self (fresh None))) = false /\
  alerts (self (fresh None)) = [] /\
  Forall (fun record =>
            valid_source (map_source load_config (StreamPayload record)) = false)
         (get_records (batch [unknown_record; unknown_record])) /\
  (run (batch [unknown_record; unknown_record]) "production" (fresh None)).1 =
    inr None /\
  alerts (self (run (batch [unknown_record; unknown_record]) "production"
                  (fresh None)).2) = [] /\
  List.filter is_pre_parse
    (since 0 (trace (run (batch [unknown_record; unknown_record]) "production"
                       (fresh None)).2)) = [] /\
  classified
    (since 0 (trace (run (batch [unknown_record; unknown_record]) "production"
                       (fresh None)).2)) = [] /\
  rule_results
    (since 0 (trace (run (batch [unknown_record; unknown_record]) "production"
                       (fresh None)).2)) = [] /\
  List.filter is_sink
    (since 0 (trace (run (batch [unknown_record; unknown_record]) "production"
                       (fresh None)).2)) = [].
Proof.
  assert (E : get_records (batch [unknown_record; unknown_record]) =
              [unknown_record; unknown_record]) by (vm_compute; reflexivity).
  assert (Hne : get_records (batch [unknown_record; unknown_record]) <> [])
    by (rewrite E; discriminate).
  assert (Hall : Forall (fun record =>
            valid_source (map_source load_config (StreamPayload record)) = false)
            (get_records (batch [unknown_record; unknown_record])))
    by (rewrite E; repeat constructor).
  split; [exact Hne|]. split; [reflexivity|]. split; [reflexivity|].
  split; [exact Hall|].
  exact (all_skipped_batch_is_quiet (C := collaborators)
           (batch [unknown_record; unknown_record]) "production" (fresh None)
           Hne eq_refl eq_refl Hall).
Defined.

End MoreOnSample.
